(** * The document view (app/pages/documents/view.js)

    A shallow embedding of the [Document] view component: the values it
    derives from a document (page-level pairs, marks), the callbacks that
    dispatch commands to the store (redaction and navigation), the canvas
    calls of the raster export and the name of the exported file, and the
    life cycle of the [useFetchDocument] hook.

    The arithmetic of the raster export is written once over an interface
    of numbers and read in IEEE binary64, the numbers of JavaScript, and in
    exact rationals [Q]; the canvas is described in exact rationals.  Strings
    are sequences of bytes: the two characters the view looks for, '/' and
    '.', are ASCII. *)

From Stdlib Require Import ZArith NArith QArith Qminmax Lia Lqa Bool.
From Stdlib Require Import String Ascii List Floats.
From stdpp Require Import gmap strings list pretty.
Import ListNotations.

Local Open Scope string_scope.
Local Open Scope list_scope.

(** ** Results of JavaScript code that may throw *)

Inductive js_error : Type :=
| TypeError.

Inductive completion (A : Type) : Type :=
| Return (a : A)
| Throw (e : js_error).

Arguments Return {A} a.
Arguments Throw {A} e.

#[global] Instance completion_ret : MRet completion := fun A a => Return a.

#[global] Instance completion_bind : MBind completion :=
  fun A B k c =>
    match c with
    | Return a => k a
    | Throw e => Throw e
    end.

(** Reading a property of [undefined] throws a [TypeError]; so does
    [Object.values(undefined)]. *)
Definition defined {A} (v : option A) : completion A :=
  match v with
  | Some a => Return a
  | None => Throw TypeError
  end.

(** ** Strings: [split], [pop] and the extension regexp *)

Module JsString.

(** [s.split(sep)] for a separator of one character: the pieces between
    the separators, in order; never the empty array. *)
Fixpoint split (sep : ascii) (s : string) : list string :=
  match s with
  | EmptyString => [EmptyString]
  | String c s' =>
      if Ascii.eqb c sep then EmptyString :: split sep s'
      else match split sep s' with
           | piece :: pieces => String c piece :: pieces
           | [] => [String c EmptyString]
           end
  end.

(** [a.pop()], the value returned: the last element, [undefined] for the
    empty array. *)
Definition pop {A} (a : list A) : option A := List.last (List.map Some a) None.

Definition is_dot (c : ascii) : bool := Ascii.eqb c ".".

(** [[^.]+$] at the start of [s]: one or more characters other than '.',
    up to the end of the input. *)
Fixpoint non_dots_to_end (s : string) : bool :=
  match s with
  | EmptyString => false
  | String c EmptyString => negb (is_dot c)
  | String c s' => negb (is_dot c) && non_dots_to_end s'
  end.

(** [/\.[^.]+$/] at the start of [s]. *)
Definition ext_matches_here (s : string) : bool :=
  match s with
  | String c s' => is_dot c && non_dots_to_end s'
  | EmptyString => false
  end.

(** [s.replace(/\.[^.]+$/, by)]: the regexp is not global, so the leftmost
    match is replaced (it reaches the end of the input); without a match
    the string is returned as it is. *)
Fixpoint replace_ext (by_ : string) (s : string) : string :=
  if ext_matches_here s then by_
  else match s with
       | EmptyString => EmptyString
       | String c s' => String c (replace_ext by_ s')
       end.

Definition contains (c : ascii) (s : string) : bool :=
  existsb (Ascii.eqb c) (list_ascii_of_string s).

End JsString.

(** [a.download] in [downloadRedacted]:
    [document.objectName.split('/').pop().replace(/\.[^.]+$/, '-REDACTED.png')]. *)
Definition downloadName (objectName : string) : completion string :=
  file ← defined (JsString.pop (JsString.split "/" objectName));
  mret (JsString.replace_ext "-REDACTED.png" file).

(** ** Numbers

    The arithmetic of the export is written over this interface and read at
    two types: IEEE binary64, the numbers JavaScript computes with, and
    exact rationals, the arithmetic without rounding or overflow. *)

Class Number (T : Type) : Type := {
  of_N : N -> T;
  mul : T -> T -> T;
  add : T -> T -> T;
  sub : T -> T -> T
}.

#[global] Instance Number_Q : Number Q := {|
  of_N := fun n => inject_Z (Z.of_N n);
  mul := Qmult;
  add := Qplus;
  sub := Qminus
|}.

#[global] Instance Number_float : Number float := {|
  of_N := fun n => PrimFloat.of_uint63 (Uint63.of_Z (Z.of_N n));
  mul := PrimFloat.mul;
  add := PrimFloat.add;
  sub := PrimFloat.sub
|}.

(** ** Data model *)

(** A bounding box as the extraction gives it and as [downloadRedacted]
    reads it: [red.Left], [red.Top], [red.Width], [red.Height], fractions of
    the page. *)
Record Box (T : Type) : Type := {
  Left : T;
  Top : T;
  Width : T;
  Height : T
}.

Arguments Build_Box {T} _ _ _ _.
Arguments Left {T} _.
Arguments Top {T} _.
Arguments Width {T} _.
Arguments Height {T} _.

Abbreviation BoundingBox := (Box Q).

(** A key-value pair, with the fields the view reads. *)
Module KeyValuePair.
Record t : Type := {
  id : string;
  pageNumber : Z;
  keyBoundingBox : BoundingBox;
  valueBoundingBox : BoundingBox
}.
End KeyValuePair.

(** A mark of the viewer built from a pair:
    [{ ...keyBoundingBox, id, type: 'key' }]. The spread copies the four
    coordinates of the box. *)
Module Mark.
Record t : Type := {
  box : BoundingBox;
  id : string;
  type : string
}.
End Mark.

(** [document.redactions]: an object from page numbers to the redactions of
    the page, each entry read through [Object.values]. *)
Abbreviation Redactions := (gmap Z (list BoundingBox)).

(** ** The store *)

Module Store.

(** Modelled from the spec: the state of the store that the view reads and
    writes (the reducers are not part of this file): for each document id
    the redaction set, from page numbers to ordered lists of boxes; the
    current page number; the search query; the header properties. *)
Record state : Type := {
  redactions : gmap string Redactions;
  currentPageNumber : Z;
  searchQuery : string;
  headerProps : option string
}.

(** Modelled from the spec: the actions of the store write contract
    (the action creators are imported by the view from
    store/entities/documents/actions, store/entities/meta/actions and
    store/ui/actions). *)
Inductive action : Type :=
| fetchDocument (id : string)
| addRedactions (id : string) (pageNumber : Z) (boxes : list BoundingBox)
| clearRedactions (id : string)
| setCurrentPageNumber (n : Z)
| setSearchQuery (q : string)
| setHeaderProps (heading : option string).

(** Modelled from the spec: the redaction set of a page of a document, the
    empty list where none was created. *)
Definition redactionSet (st : state) (id : string) (pageNumber : Z)
  : list BoundingBox :=
  default [] (redactions st !! id ≫= fun pages => pages !! pageNumber).

(** Modelled from the spec: the reducer. [addRedactions] appends the boxes
    to the list of the page, creating it on the first redaction, without
    removing duplicates; [clearRedactions] removes the redaction state of
    all pages of the document; the setters replace their field;
    [fetchDocument] starts a request and changes none of these fields. *)
Definition reduce (st : state) (a : action) : state :=
  match a with
  | fetchDocument _ => st
  | addRedactions id pageNumber boxes =>
      let pages := default ∅ (redactions st !! id) in
      let boxes' := redactionSet st id pageNumber ++ boxes in
      {| redactions := <[id := <[pageNumber := boxes']> pages]> (redactions st);
         currentPageNumber := currentPageNumber st;
         searchQuery := searchQuery st;
         headerProps := headerProps st |}
  | clearRedactions id =>
      {| redactions := delete id (redactions st);
         currentPageNumber := currentPageNumber st;
         searchQuery := searchQuery st;
         headerProps := headerProps st |}
  | setCurrentPageNumber n =>
      {| redactions := redactions st;
         currentPageNumber := n;
         searchQuery := searchQuery st;
         headerProps := headerProps st |}
  | setSearchQuery q =>
      {| redactions := redactions st;
         currentPageNumber := currentPageNumber st;
         searchQuery := q;
         headerProps := headerProps st |}
  | setHeaderProps heading =>
      {| redactions := redactions st;
         currentPageNumber := currentPageNumber st;
         searchQuery := searchQuery st;
         headerProps := heading |}
  end.

(** Modelled from the spec: the commands of one callback, dispatched in
    order, each processed before the next. *)
Definition dispatch (commands : list action) (st : state) : state :=
  fold_left reduce commands st.

End Store.

(** ** Derived values of the view *)

(** [pageData.pairs]:
    [docData.pairs.filter(d => d.pageNumber === currentPageNumber)]. *)
Definition pageData_pairs (docData_pairs : list KeyValuePair.t)
    (currentPageNumber : Z) : list KeyValuePair.t :=
  List.filter (fun d => KeyValuePair.pageNumber d =? currentPageNumber)%Z
    docData_pairs.

Definition keyMark (p : KeyValuePair.t) : Mark.t :=
  {| Mark.box := KeyValuePair.keyBoundingBox p;
     Mark.id := KeyValuePair.id p;
     Mark.type := "key" |}.

Definition valueMark (p : KeyValuePair.t) : Mark.t :=
  {| Mark.box := KeyValuePair.valueBoundingBox p;
     Mark.id := KeyValuePair.id p;
     Mark.type := "value" |}.

(** [pagePairsAsMarks]: the [reduce] over [pageData.pairs], from [[]], that
    returns [[...acc, key mark, value mark]]. *)
Definition pagePairsAsMarks (pageData_pairs : list KeyValuePair.t)
  : list Mark.t :=
  fold_left (fun acc p => acc ++ [keyMark p; valueMark p]) pageData_pairs [].

(** ** Memoised values

    [useMemo(compute, deps)] returns the value kept from an earlier render
    when each dependency is the same as then ([Object.is]) and computes the
    value anew otherwise. The derived values above are the computations; the
    dependencies of each list all that its computation reads. *)

Record memo (D V : Type) : Type := {
  memo_deps : D;
  memo_value : V
}.

Arguments memo_deps {D V} _.
Arguments memo_value {D V} _.

Section UseMemo.

Context {D V : Type}.

(** [Object.is] on the dependencies of two renders, one by one. *)
Variable same : D -> D -> bool.
Variable compute : D -> V.

Definition useMemo (kept : option (memo D V)) (deps : D) : memo D V :=
  match kept with
  | Some m =>
      if same (memo_deps m) deps then m
      else {| memo_deps := deps; memo_value := compute deps |}
  | None => {| memo_deps := deps; memo_value := compute deps |}
  end.

(** The renders of a component, each with its dependencies. *)
Definition rerender (kept : option (memo D V)) (renders : list D)
  : option (memo D V) :=
  fold_left (fun kept deps => Some (useMemo kept deps)) renders kept.

End UseMemo.

(** [pageData.pairs] as the view keeps it, on the dependencies
    [docData.pairs] and [currentPageNumber]. *)
Definition pageData_pairs_memo (same : _ -> _ -> bool) :=
  useMemo (D := list KeyValuePair.t * Z) same
    (fun deps => pageData_pairs deps.1 deps.2).

(** ** Callbacks of the redaction controller

    Each callback is the list of the commands it dispatches, in order. *)

Section Callbacks.

Variable id : string.
Variable currentPageNumber : Z.

Definition redactMatches (wordsMatchingSearch : list BoundingBox)
  : list Store.action :=
  [Store.addRedactions id currentPageNumber wordsMatchingSearch;
   Store.setSearchQuery ""].

(** [redact(bbox, pageNumber = currentPageNumber)]. *)
Definition redact (bbox : BoundingBox) (pageNumber : option Z)
  : list Store.action :=
  [Store.addRedactions id (default currentPageNumber pageNumber) [bbox]].

Definition clearReds : list Store.action :=
  [Store.clearRedactions id].

Definition redactAllValues (pageData_pairs : list KeyValuePair.t)
  : list Store.action :=
  [Store.addRedactions id currentPageNumber
     (List.map KeyValuePair.valueBoundingBox pageData_pairs)].

Definition switchPage (pageNumber : Z) : list Store.action :=
  [Store.setCurrentPageNumber pageNumber].

End Callbacks.

(** ** The hook [useFetchDocument] *)

Module FetchHook.

(** [isMounted] is the ref of the hook; [updates] lists the calls of
    [setStatus] that were made, the oldest first. *)
Record t : Type := {
  isMounted : bool;
  updates : list string
}.

(** [useRef(true)], [useState('')]. *)
Definition initial : t := {| isMounted := true; updates := [] |}.

Definition status (h : t) : string := List.last (updates h) "".

(** [isMounted.current && setStatus(s)]. *)
Definition setStatus_when_mounted (s : string) (h : t) : t :=
  if isMounted h
  then {| isMounted := isMounted h; updates := updates h ++ [s] |}
  else h.

(** The effect on [[dispatch, id, isDocumentFetched]]: the new state of the
    hook and the commands dispatched. *)
Definition effect (id : string) (isDocumentFetched : bool) (h : t)
  : t * list Store.action :=
  if negb isDocumentFetched
  then (setStatus_when_mounted "pending" h, [Store.fetchDocument id])
  else (setStatus_when_mounted "success" h, []).

(** The [then] and [catch] callbacks of the promise of the fetch. *)
Definition fulfilled (h : t) : t := setStatus_when_mounted "success" h.
Definition rejected (h : t) : t := setStatus_when_mounted "error" h.

(** The clean-up of the second effect: [isMounted.current = false]. *)
Definition cleanup (h : t) : t :=
  {| isMounted := false; updates := updates h |}.

End FetchHook.

(** ** The component [Document]: its effects and the events it receives *)

Record view : Type := {
  store : Store.state;
  fetchHook : FetchHook.t
}.

Section Document.

Variable id : string.
(** [document.documentName]. *)
Variable documentName : option string.
(** [docData.pairs = getDocumentKeyValuePairs(document)]. *)
Variable docData_pairs : list KeyValuePair.t.
(** [getPageWordsBySearch(document, currentPageNumber, searchQuery)]. *)
Variable getPageWordsBySearch : Z -> string -> list BoundingBox.

(** [reject(either(isNil, isEmpty), { heading: documentName })]. *)
Definition heading : option string :=
  match documentName with
  | Some EmptyString => None
  | Some name => Some name
  | None => None
  end.

(** The commands of the effects of the first render after that of the
    fetch hook, in the order of the hooks: [setCurrentPageNumber(1)] and
    the header. *)
Definition mount_effects : list Store.action :=
  [Store.setCurrentPageNumber 1; Store.setHeaderProps heading].

(** The commands of the clean-ups at unmount, in the order of the hooks:
    [clearRedactions(id)] and [setHeaderProps({})]. *)
Definition cleanups : list Store.action :=
  [Store.clearRedactions id; Store.setHeaderProps None].

(** The first render: the effect of the fetch hook, then the effects of
    the component. *)
Definition mount (isDocumentFetched : bool) (st : Store.state) : view :=
  let '(h, fetching) := FetchHook.effect id isDocumentFetched FetchHook.initial in
  {| store := Store.dispatch (fetching ++ mount_effects) st;
     fetchHook := h |}.

(** Unmount: the clean-up of the fetch hook, then those of the
    component. *)
Definition unmount (w : view) : view :=
  {| store := Store.dispatch cleanups (store w);
     fetchHook := FetchHook.cleanup (fetchHook w) |}.

Inductive event : Type :=
| FetchEffect (isDocumentFetched : bool)
| FetchFulfilled
| FetchRejected
| Unmount
| RedactMatches
| Redact (bbox : BoundingBox) (pageNumber : option Z)
| ClearReds
| RedactAllValues
| SwitchPage (pageNumber : Z).

Definition callback (commands : list Store.action) (w : view) : view :=
  {| store := Store.dispatch commands (store w); fetchHook := fetchHook w |}.

(** One event, processed to its end before the next. The callbacks close
    over the properties of the current render, read from the store. *)
Definition step (w : view) (e : event) : view :=
  let currentPageNumber := Store.currentPageNumber (store w) in
  let searchQuery := Store.searchQuery (store w) in
  match e with
  | FetchEffect isDocumentFetched =>
      let '(h, fetching) := FetchHook.effect id isDocumentFetched (fetchHook w) in
      {| store := Store.dispatch fetching (store w); fetchHook := h |}
  | FetchFulfilled =>
      {| store := store w; fetchHook := FetchHook.fulfilled (fetchHook w) |}
  | FetchRejected =>
      {| store := store w; fetchHook := FetchHook.rejected (fetchHook w) |}
  | Unmount => unmount w
  | RedactMatches =>
      callback
        (redactMatches id currentPageNumber
           (getPageWordsBySearch currentPageNumber searchQuery)) w
  | Redact bbox pageNumber =>
      callback (redact id currentPageNumber bbox pageNumber) w
  | ClearReds => callback (clearReds id) w
  | RedactAllValues =>
      callback
        (redactAllValues id currentPageNumber
           (pageData_pairs docData_pairs currentPageNumber)) w
  | SwitchPage pageNumber => callback (switchPage pageNumber) w
  end.

Definition run (w : view) (events : list event) : view :=
  fold_left step events w.


End Document.

(** ** The canvas *)

(** A colour with 8-bit channels. *)
Module Colour.
Record t : Type := RGBA {
  red : N;
  green : N;
  blue : N;
  alpha : N
}.
End Colour.

Abbreviation colour := Colour.t.
Abbreviation RGBA := Colour.RGBA.

Definition bitmap : Type := N -> N -> colour.

(** The page surface found by [querySelector('canvas,img')]: an image, with
    its natural size and its layout size, or a canvas, with the size of its
    bitmap. *)
Module Element.

Inductive t : Type :=
| img (naturalWidth naturalHeight width height : N) (pixels : bitmap)
| canvas (width height : N) (pixels : bitmap).

(** [theThing.naturalWidth], undefined on a canvas. *)
Definition naturalWidth (e : t) : option N :=
  match e with
  | img nw _ _ _ _ => Some nw
  | canvas _ _ _ => None
  end.

Definition naturalHeight (e : t) : option N :=
  match e with
  | img _ nh _ _ _ => Some nh
  | canvas _ _ _ => None
  end.

Definition width (e : t) : N :=
  match e with
  | img _ _ w _ _ => w
  | canvas w _ _ => w
  end.

Definition height (e : t) : N :=
  match e with
  | img _ _ _ h _ => h
  | canvas _ h _ => h
  end.

Definition pixels (e : t) : bitmap :=
  match e with
  | img _ _ _ _ p => p
  | canvas _ _ p => p
  end.

(** The intrinsic size, in pixels, which [drawImage] uses for its
    source. *)
Definition intrinsicWidth (e : t) : N :=
  match e with
  | img nw _ _ _ _ => nw
  | canvas w _ _ => w
  end.

Definition intrinsicHeight (e : t) : N :=
  match e with
  | img _ nh _ _ _ => nh
  | canvas _ h _ => h
  end.

End Element.

(** [a || b] on a number that may be undefined: [undefined] and [0] are
    falsy. *)
Definition or_else (a : option N) (b : N) : N :=
  match a with
  | Some 0%N => b
  | Some n => n
  | None => b
  end.

(** CSS colours of the forms [#rgb] and [#rrggbb]. *)
Definition hex_digit (c : ascii) : option N :=
  let n := N_of_ascii c in
  if (48 <=? n)%N && (n <=? 57)%N then Some (n - 48)%N
  else if (97 <=? n)%N && (n <=? 102)%N then Some (n - 87)%N
  else if (65 <=? n)%N && (n <=? 70)%N then Some (n - 55)%N
  else None.

Definition parse_colour (css : string) : option colour :=
  match list_ascii_of_string css with
  | ["#"%char; r; g; b] =>
      r ← hex_digit r; g ← hex_digit g; b ← hex_digit b;
      Some (RGBA (17 * r) (17 * g) (17 * b) 255)
  | ["#"%char; r1; r0; g1; g0; b1; b0] =>
      r1 ← hex_digit r1; r0 ← hex_digit r0;
      g1 ← hex_digit g1; g0 ← hex_digit g0;
      b1 ← hex_digit b1; b0 ← hex_digit b0;
      Some (RGBA (16 * r1 + r0) (16 * g1 + g0) (16 * b1 + b0) 255)
  | _ => None
  end.

(** The calls made on the 2D context, with their arguments. *)
Inductive call : Type :=
| drawImage (image : Element.t) (dx dy : N)
| set_fillStyle (css : string)
| fillRect (x y w h : Q).

Definition transparent : colour := RGBA 0 0 0 0.
Definition black : colour := RGBA 0 0 0 255.

(** The state of a 2D context: the bitmap and the fill style. A new canvas
    is transparent and fills in black. *)
Record context : Type := {
  ctx_pixels : bitmap;
  ctx_fillStyle : colour
}.

Definition new_context : context :=
  {| ctx_pixels := fun _ _ => transparent; ctx_fillStyle := black |}.

(** The part of the pixel column (or row) [i], the interval from [i] to
    [i + 1], that lies between [lo] and [hi]. *)
Definition overlap (lo hi : Q) (i : N) : Q :=
  Qmax 0 (Qmin hi (of_N i + 1) - Qmax lo (of_N i)).

(** The fraction of the pixel [(i, j)] that the rectangle covers. A negative
    width or height extends the rectangle to the left or upwards. *)
Definition coverage (x y w h : Q) (i j : N) : Q :=
  overlap (Qmin x (x + w)) (Qmax x (x + w)) i
  * overlap (Qmin y (y + h)) (Qmax y (y + h)) j.

Section Raster.

(** How the rasteriser composes a colour onto a pixel that it covers in
    part, or with a translucent colour onto an opaque one. *)
Variable blend : Q -> colour -> colour -> colour.

(** Drawing [top] onto a pixel of colour [under], covered by the fraction
    [cov]: nothing where the pixel is not covered; the colour itself where
    it covers the whole pixel and either is opaque or lands on a
    transparent pixel. *)
Definition paint (cov : Q) (top under : colour) : colour :=
  if Qeq_bool cov 0 then under
  else if Qeq_bool cov 1
          && ((Colour.alpha top =? 255)%N || (Colour.alpha under =? 0)%N)
       then top
       else blend cov top under.

Definition exec (ctx : context) (c : call) : context :=
  match c with
  | drawImage image dx dy =>
      {| ctx_pixels := fun i j =>
           if (dx <=? i)%N && (i <? dx + Element.intrinsicWidth image)%N
              && (dy <=? j)%N && (j <? dy + Element.intrinsicHeight image)%N
           then paint 1 (Element.pixels image (i - dx)%N (j - dy)%N) (ctx_pixels ctx i j)
           else ctx_pixels ctx i j;
         ctx_fillStyle := ctx_fillStyle ctx |}
  | set_fillStyle css =>
      {| ctx_pixels := ctx_pixels ctx;
         ctx_fillStyle := default (ctx_fillStyle ctx) (parse_colour css) |}
  | fillRect x y w h =>
      {| ctx_pixels := fun i j =>
           paint (coverage x y w h i j) (ctx_fillStyle ctx) (ctx_pixels ctx i j);
         ctx_fillStyle := ctx_fillStyle ctx |}
  end.

Definition render (calls : list call) : context :=
  fold_left exec calls new_context.

End Raster.

(** ** The raster export *)

(** The arguments of the [fillRect] of one redaction, with
    [x = val => val * cnv.width], [y = val => val * cnv.height] and
    [margin = 2]. *)
Module Cnv.
Section FillRectArguments.

Context {T : Type} `{Number T}.

Variables width height : N.

Definition x (val : T) : T := mul val (of_N width).
Definition y (val : T) : T := mul val (of_N height).
Definition margin : T := of_N 2.

Definition fillRect_arguments (red : Box T) : T * T * T * T :=
  (sub (x (Left red)) margin,
   sub (y (Top red)) margin,
   add (x (Width red)) (mul (of_N 2) margin),
   add (y (Height red)) (mul (of_N 2) margin)).

End FillRectArguments.
End Cnv.

Definition fill (cnv_width cnv_height : N) (red : BoundingBox) : call :=
  let '(x, y, w, h) := Cnv.fillRect_arguments cnv_width cnv_height red in
  fillRect x y w h.

(** The PNG image made by [toBlob]: the bitmap of the canvas. *)
Record image : Type := {
  image_width : N;
  image_height : N;
  image_pixels : bitmap
}.


(** The download that the anchor starts: [a.download] and the blob behind
    [a.href], with its type; and the calls that were made on the context of
    the canvas, in order. *)
Record download : Type := {
  download_name : string;
  download_type : string;
  download_image : image;
  download_calls : list call
}.

Section RasterExport.

Variable blend : Q -> colour -> colour -> colour.

(** [downloadRedacted]. [theThing] is the result of
    [contentRef.current.querySelector('canvas,img')], [redactions] is
    [document.redactions] and [objectName] is [document.objectName]. *)
Definition downloadRedacted (theThing : option Element.t)
    (redactions : option Redactions) (currentPageNumber : Z)
    (objectName : string) : completion download :=
  theThing ← defined theThing;
  let cnv_width :=
    or_else (Element.naturalWidth theThing) (Element.width theThing) in
  let cnv_height :=
    or_else (Element.naturalHeight theThing) (Element.height theThing) in
  let drawn := [drawImage theThing 0 0; set_fillStyle "#000"] in
  redactions ← defined redactions;
  reds ← defined (redactions !! currentPageNumber);
  let calls := drawn ++ List.map (fill cnv_width cnv_height) reds in
  name ← downloadName objectName;
  mret {| download_name := name;
          download_type := "image/png";
          download_image :=
            {| image_width := cnv_width;
               image_height := cnv_height;
               image_pixels := ctx_pixels (render blend calls) |};
          download_calls := calls |}.

End RasterExport.


(** The fraction of the pixel [(i, j)] that the rectangle filled for the
    redaction [red] covers. *)
Definition fill_coverage (cnv_width cnv_height : N) (red : BoundingBox)
    (i j : N) : Q :=
  let '(x, y, w, h) := Cnv.fillRect_arguments cnv_width cnv_height red in
  coverage x y w h i j.

(** The extent that the specification gives the rectangle of a redaction:
    the box, scaled to the size of the canvas, with a margin of 2 pixels on
    each of its four sides. *)
Record extent : Type := {
  x_min : Q;
  x_max : Q;
  y_min : Q;
  y_max : Q
}.

Definition margin_extent (cnv_width cnv_height : N) (red : BoundingBox)
  : extent :=
  {| x_min := Left red * of_N cnv_width - 2;
     x_max := (Left red + Width red) * of_N cnv_width + 2;
     y_min := Top red * of_N cnv_height - 2;
     y_max := (Top red + Height red) * of_N cnv_height + 2 |}%Q.

(** The pixel [(i, j)], the square from [(i, j)] to [(i + 1, j + 1)], lies
    within the extent, or apart from it. *)
Definition within (e : extent) (i j : N) : Prop :=
  (x_min e <= of_N i ∧ of_N i + 1 <= x_max e
   ∧ y_min e <= of_N j ∧ of_N j + 1 <= y_max e)%Q.

Definition apart (e : extent) (i j : N) : Prop :=
  (of_N i + 1 <= x_min e ∨ x_max e <= of_N i
   ∨ of_N j + 1 <= y_min e ∨ y_max e <= of_N j)%Q.

(** A box of width and height at least 0. *)
Definition proper (red : BoundingBox) : Prop :=
  (0 <= Width red ∧ 0 <= Height red)%Q.

(** The box of the example of the specification,
    [{left: 0.1, top: 0.1, width: 0.2, height: 0.1}]. *)
Definition example_box : BoundingBox :=
  {| Left := 0.1; Top := 0.1; Width := 0.2; Height := 0.1 |}%Q.

(** A white canvas of 10 by 10, and a view of the document 'doc' at page 1
    with the search query 'foo' and no redactions, for the examples. *)
Definition example_surface : Element.t :=
  Element.canvas 10 10 (fun _ _ => RGBA 255 255 255 255).

Definition example_view : view :=
  {| store := {| Store.redactions := ∅;
                 Store.currentPageNumber := 1;
                 Store.searchQuery := "foo";
                 Store.headerProps := None |};
     fetchHook := FetchHook.initial |}.

Definition example_pair (id : string) (pageNumber : Z) : KeyValuePair.t :=
  {| KeyValuePair.id := id;
     KeyValuePair.pageNumber := pageNumber;
     KeyValuePair.keyBoundingBox :=
       {| Left := 0.1; Top := 0.1; Width := 0.2; Height := 0.1 |}%Q;
     KeyValuePair.valueBoundingBox :=
       {| Left := 0.4; Top := 0.1; Width := 0.3; Height := 0.1 |}%Q |}.

(** The pairs of a document of two pages: 'a' and 'c' on page 1, 'b' on
    page 2. *)
Definition example_pairs : list KeyValuePair.t :=
  [example_pair "a" 1; example_pair "b" 2; example_pair "c" 1].

(** The condition under which the view shows the buttons 'Clear Redaction'
    and 'Download Redacted Version':
    [track === 'redaction' && document.redactions &&
     Object.keys(document.redactions).length]. *)
Definition redaction_buttons_shown (track : string)
    (redactions : option Redactions) : bool :=
  String.eqb track "redaction"
  && match redactions with
     | Some pages => negb (size pages =? 0)%nat
     | None => false
     end.

(** ** The rest of the view *)

(** The name under which 'Download Original' saves the document:
    [documentName.split('/').pop()]. *)
Definition originalName (documentName : string) : completion string :=
  defined (JsString.pop (JsString.split "/" documentName)).

(** The redactions handed to the viewer:
    [(document.redactions || {})[currentPageNumber]]. *)
Definition viewer_redactions (redactions : option Redactions)
    (currentPageNumber : Z) : option (list BoundingBox) :=
  default ∅ redactions !! currentPageNumber.

(** What the view shows for a status: [<Loading />] for 'pending', the tabs
    and the viewer for 'success', nothing else. *)
Inductive screen : Type :=
| Loading
| Content
| Blank.

Definition rendered (status : string) : screen :=
  if String.eqb status "pending" then Loading
  else if String.eqb status "success" then Content
  else Blank.

(** [downloadKV]: the request made to the storage, with the key
    [`${resultDirectory}page-${currentPageNumber}-forms.csv`]; the URL it
    resolves to is opened. A template literal prints an undefined value as
    'undefined'. It prints a number that is whole and of magnitude below
    10^21 in decimal digits; the exponent form of the other whole numbers
    and the digits of fractions are not modelled: [None]. *)
Definition template (v : option string) : string := default "undefined" v.

Definition template_number (n : Z) : option string :=
  if (Z.abs n <? 10 ^ 21)%Z then Some (pretty n) else None.

Record storage_get : Type := {
  storage_key : string;
  storage_expires : N
}.

Definition downloadKV (resultDirectory : option string)
    (currentPageNumber : Z) : option storage_get :=
  page ← template_number currentPageNumber;
  Some {| storage_key :=
            template resultDirectory +:+ "page-" +:+ page +:+ "-forms.csv";
          storage_expires := 300 |}.

(** The whole numbers that a number of JavaScript holds without rounding
    ([Number.isSafeInteger]). *)
Definition safe_integer (n : Z) : Prop := (Z.abs n < 2 ^ 53)%Z.

(** A JavaScript object as the map of its own properties, for the marks of
    the lines, whose bounding box is spread over the [id]. *)
Inductive js_value : Type :=
| Num (q : Q)
| Str (s : string).

Abbreviation object := (gmap string js_value).

Module Line.
Record t : Type := {
  id : string;
  boundingBox : option object
}.
End Line.

(** [{ id, ...boundingBox }]: the properties of the box are written after
    [id]; spreading an undefined box adds nothing. *)
Definition lineMark (line : Line.t) : object :=
  default ∅ (Line.boundingBox line) ∪ {["id" := Str (Line.id line)]}.

(** [pageLinesAsMarks]. *)
Definition pageLinesAsMarks (pageData_lines : list Line.t) : list object :=
  List.map lineMark pageData_lines.

(** The highlighted value: [useState(null)] and the effect on
    [[highlightedKv]] that, for a truthy state, sets a timer which resets
    the state to [null]. [timers] counts the timers that are set and have
    not fired. *)
Record highlight (K : Type) : Type := {
  highlightedKv : option K;
  timers : nat
}.

Arguments highlightedKv {K} _.
Arguments timers {K} _.

Section Highlight.

Context {K : Type}.

(** [Object.is] on two values, and the truthiness of a value: an object is
    truthy, [''], [0] and [NaN] are not. *)
Variable same : K -> K -> bool.
Variable truthy : K -> bool.

Definition same_state (a b : option K) : bool :=
  match a, b with
  | None, None => true
  | Some a, Some b => same a b
  | _, _ => false
  end.

Definition initial_highlight : highlight K :=
  {| highlightedKv := None; timers := 0 |}.

(** The effect: [if (highlightedKv) setTimeout(...)]. *)
Definition highlight_effect (h : highlight K) : highlight K :=
  match highlightedKv h with
  | Some kv =>
      if truthy kv
      then {| highlightedKv := highlightedKv h; timers := S (timers h) |}
      else h
  | None => h
  end.

(** [setHighlightedKv(v)]: the effect runs when the state has changed. *)
Definition setHighlightedKv (v : option K) (h : highlight K) : highlight K :=
  if same_state (highlightedKv h) v then h
  else highlight_effect {| highlightedKv := v; timers := timers h |}.

(** A timer fires: [setHighlightedKv(null)]. *)
Definition timer_fires (h : highlight K) : highlight K :=
  match timers h with
  | O => h
  | S n => setHighlightedKv None {| highlightedKv := highlightedKv h; timers := n |}
  end.

Inductive highlight_event : Type :=
| Highlights (kv : option K)
| TimerFires.

Definition highlight_step (h : highlight K) (e : highlight_event)
  : highlight K :=
  match e with
  | Highlights kv => setHighlightedKv kv h
  | TimerFires => timer_fires h
  end.

Definition highlight_run (h : highlight K) (events : list highlight_event)
  : highlight K :=
  fold_left highlight_step events h.

(** A truthy highlighted value has a timer that is still to fire. *)
Definition timed (h : highlight K) : Prop :=
  ∀ kv, highlightedKv h = Some kv → truthy kv = true → 0 < timers h.

End Highlight.

(** The truthiness of a string: every string but the empty one. *)
Definition truthy_string (s : string) : bool := negb (String.eqb s "").

(** The commands that the view dispatches for an event, and over a sequence
    of events. *)
Section Commands.

Variable id : string.
Variable docData_pairs : list KeyValuePair.t.
Variable getPageWordsBySearch : Z -> string -> list BoundingBox.

Definition commands (w : view) (e : event) : list Store.action :=
  let currentPageNumber := Store.currentPageNumber (store w) in
  let searchQuery := Store.searchQuery (store w) in
  match e with
  | FetchEffect isDocumentFetched =>
      (FetchHook.effect id isDocumentFetched (fetchHook w)).2
  | FetchFulfilled | FetchRejected => []
  | Unmount => cleanups id
  | RedactMatches =>
      redactMatches id currentPageNumber
        (getPageWordsBySearch currentPageNumber searchQuery)
  | Redact bbox pageNumber => redact id currentPageNumber bbox pageNumber
  | ClearReds => clearReds id
  | RedactAllValues =>
      redactAllValues id currentPageNumber
        (pageData_pairs docData_pairs currentPageNumber)
  | SwitchPage pageNumber => switchPage pageNumber
  end.

Fixpoint trace (w : view) (events : list event) : list Store.action :=
  match events with
  | [] => []
  | e :: events =>
      commands w e ++ trace (step id docData_pairs getPageWordsBySearch w e) events
  end.

End Commands.

(** The document that a command names. *)
Definition target (a : Store.action) : option string :=
  match a with
  | Store.fetchDocument id => Some id
  | Store.addRedactions id _ _ => Some id
  | Store.clearRedactions id => Some id
  | _ => None
  end.

(** A pixel that each rectangle covers whole or not at all. *)
Definition crisp (cnv_width cnv_height : N) (reds : list BoundingBox)
    (i j : N) : Prop :=
  ∀ red, In red reds →
    proper red
    ∧ (within (margin_extent cnv_width cnv_height red) i j
       ∨ apart (margin_extent cnv_width cnv_height red) i j).


(** Equality of the dependencies of [pageData], decided. *)
#[global] Instance Q_eq_dec : EqDecision Q.
Proof. solve_decision. Defined.

#[global] Instance Box_eq_dec : EqDecision BoundingBox.
Proof. solve_decision. Defined.

#[global] Instance KeyValuePair_eq_dec : EqDecision KeyValuePair.t.
Proof. solve_decision. Defined.

Definition is_unmount (e : event) : bool :=
  match e with
  | Unmount => true
  | _ => false
  end.

(** ** The raster export in binary64

    The numbers of JavaScript are IEEE binary64: the fields of a box, the
    arguments that [downloadRedacted] computes from them and hands to
    [fillRect]. The canvas ignores a [fillRect] with an argument that is
    infinite or NaN, and fills the rectangle that finite arguments
    denote. *)

(** The rational that a finite binary64 number is; none for the infinities
    and NaN. *)
Definition finite_value (f : float) : option Q :=
  match Prim2SF f with
  | S754_zero _ => Some 0%Q
  | S754_finite s m e =>
      Some ((if s then - (1) else 1) * inject_Z (Zpos m) * Qpower 2 e)%Q
  | S754_infinity _ => None
  | S754_nan => None
  end.

Abbreviation BoundingBox64 := (Box float).
Abbreviation Redactions64 := (gmap Z (list BoundingBox64)).

(** The four arguments of a [fillRect], where all are finite. *)
Definition finite_rect (arguments : float * float * float * float)
  : option (Q * Q * Q * Q) :=
  let '(x, y, w, h) := arguments in
  x ← finite_value x; y ← finite_value y;
  w ← finite_value w; h ← finite_value h;
  Some (x, y, w, h).

Definition fillRect_of (r : Q * Q * Q * Q) : call :=
  let '(x, y, w, h) := r in fillRect x y w h.




(** The calls of [fillRect] that take effect on the canvas: [fillRect]
    returns at once when one of its arguments is infinite or NaN. *)
Definition effective_fills (fills : list (float * float * float * float))
  : list call :=
  List.map fillRect_of (omap finite_rect fills).

(** The download, with the arguments of the calls of [fillRect], one for
    each redaction of the page, in order. *)
Record download64 : Type := {
  download64_name : string;
  download64_type : string;
  download64_image : image;
  download64_fills : list (float * float * float * float)
}.

Section RasterExport64.

Variable blend : Q -> colour -> colour -> colour.

(** [downloadRedacted], its arithmetic in binary64. *)
Definition downloadRedacted64 (theThing : option Element.t)
    (redactions : option Redactions64) (currentPageNumber : Z)
    (objectName : string) : completion download64 :=
  theThing ← defined theThing;
  let cnv_width :=
    or_else (Element.naturalWidth theThing) (Element.width theThing) in
  let cnv_height :=
    or_else (Element.naturalHeight theThing) (Element.height theThing) in
  let drawn := [drawImage theThing 0 0; set_fillStyle "#000"] in
  redactions ← defined redactions;
  reds ← defined (redactions !! currentPageNumber);
  let fills := List.map (Cnv.fillRect_arguments cnv_width cnv_height) reds in
  let calls := drawn ++ effective_fills fills in
  name ← downloadName objectName;
  mret {| download64_name := name;
          download64_type := "image/png";
          download64_image :=
            {| image_width := cnv_width;
               image_height := cnv_height;
               image_pixels := ctx_pixels (render blend calls) |};
          download64_fills := fills |}.

End RasterExport64.

(** The page surface has pixels: its intrinsic width and height are unsigned
    longs ([unsigned long], below 2^32) other than 0. *)
Definition has_pixels (theThing : Element.t) : Prop :=
  (0 < Element.intrinsicWidth theThing < 2 ^ 32)%N
  ∧ (0 < Element.intrinsicHeight theThing < 2 ^ 32)%N.


(** The box of the example of the specification in binary64, and a box
    whose width, scaled to a canvas, overflows. *)
#[warnings="-inexact-float"]
Definition example_box64 : BoundingBox64 :=
  {| Left := 0.1; Top := 0.1; Width := 0.2; Height := 0.1 |}%float.


(** * Properties *)

(** ** The store *)

Section StoreFacts.

Implicit Types (st : Store.state) (id : string) (pageNumber : Z).

Lemma redactionSet_addRedactions st id pageNumber boxes :
  Store.redactionSet (Store.reduce st (Store.addRedactions id pageNumber boxes))
    id pageNumber
  = Store.redactionSet st id pageNumber ++ boxes.
Proof.
  unfold Store.redactionSet at 1. cbn.
  rewrite lookup_insert_eq. cbn. by rewrite lookup_insert_eq.
Qed.

Lemma redactionSet_addRedactions_other st id pageNumber boxes id' pageNumber' :
  (id', pageNumber') ≠ (id, pageNumber) →
  Store.redactionSet (Store.reduce st (Store.addRedactions id pageNumber boxes))
    id' pageNumber'
  = Store.redactionSet st id' pageNumber'.
Proof.
  intros Hne. unfold Store.redactionSet. cbn.
  destruct (decide (id = id')) as [<-|Hid].
  - rewrite lookup_insert_eq. cbn.
    rewrite lookup_insert_ne by congruence.
    by destruct (Store.redactions st !! id).
  - by rewrite lookup_insert_ne.
Qed.


End StoreFacts.

(** ** Page-level pairs and marks *)

Lemma pagePairsAsMarks_from (pairs : list KeyValuePair.t) (acc : list Mark.t) :
  fold_left (fun acc p => acc ++ [keyMark p; valueMark p]) pairs acc
  = acc ++ List.flat_map (fun p => [keyMark p; valueMark p]) pairs.
Proof.
  revert acc. induction pairs as [|p pairs IH]; intros acc; cbn.
  - by rewrite app_nil_r.
  - rewrite IH. by rewrite <- app_assoc.
Qed.

Lemma pagePairsAsMarks_cons (p : KeyValuePair.t) (pairs : list KeyValuePair.t) :
  pagePairsAsMarks (p :: pairs) = keyMark p :: valueMark p :: pagePairsAsMarks pairs.
Proof.
  unfold pagePairsAsMarks. cbn. by rewrite !pagePairsAsMarks_from.
Qed.

(** A memoised value is the value of the computation on the dependencies of
    the current render: the same dependencies are equal ones. *)
Lemma useMemo_value {D V : Type} (same : D → D → bool) (compute : D → V)
    (kept : option (memo D V)) (deps : D) :
  (∀ d d', same d d' = true → d = d') →
  (∀ m, kept = Some m → memo_value m = compute (memo_deps m)) →
  memo_value (useMemo same compute kept deps) = compute deps.
Proof.
  intros Hsame Hkept. unfold useMemo. destruct kept as [m|]; [|done].
  destruct (same (memo_deps m) deps) eqn:E; [|done].
  rewrite (Hkept m eq_refl). f_equal. by apply Hsame.
Qed.

Lemma rerender_value {D V : Type} (same : D → D → bool) (compute : D → V)
    (renders : list D) (kept : option (memo D V)) :
  (∀ d d', same d d' = true → d = d') →
  (∀ m, kept = Some m → memo_value m = compute (memo_deps m)) →
  ∀ m, rerender same compute kept renders = Some m →
       memo_value m = compute (memo_deps m)
       ∧ (∀ deps, List.last (List.map Some renders) None = Some deps →
            memo_value m = compute deps).
Proof.
  intros Hsame. revert kept.
  induction renders as [|deps renders IH] using rev_ind; intros kept Hkept m.
  - cbn. intros ->%Hkept. by split.
  - unfold rerender. rewrite fold_left_app. cbn.
    intros [= <-]. fold (rerender same compute kept renders).
    assert (Hvalue : memo_value (useMemo same compute
                                   (rerender same compute kept renders) deps)
                     = compute deps).
    { apply useMemo_value; [done|].
      intros m' Hm'. by destruct (IH kept Hkept m' Hm'). }
    split.
    + unfold useMemo in *.
      destruct (rerender same compute kept renders) as [m'|] eqn:E; [|done].
      destruct (same (memo_deps m') deps); [|done].
      by destruct (IH kept Hkept m' E).
    + intros deps'. rewrite List.map_app. cbn [List.map].
      rewrite List.last_last. by intros [= <-].
Qed.

(** C5: the page-level pairs are the document-level pairs filtered by
    [pageNumber = currentPageNumber], exactly: a pair is on the page list if
    and only if it is on the document list with that page number, and the
    page list keeps the order and the repetitions of the document list. *)
Theorem pageData_pairs_exact_filter
    (docData_pairs : list KeyValuePair.t) (currentPageNumber : Z) :
  pageData_pairs docData_pairs currentPageNumber
  = filter (λ d, KeyValuePair.pageNumber d = currentPageNumber) docData_pairs
  ∧ (∀ d, In d (pageData_pairs docData_pairs currentPageNumber)
          ↔ In d docData_pairs ∧ KeyValuePair.pageNumber d = currentPageNumber)
  ∧ sublist (pageData_pairs docData_pairs currentPageNumber) docData_pairs.
Proof.
  assert (Heq : pageData_pairs docData_pairs currentPageNumber
    = filter (λ d, KeyValuePair.pageNumber d = currentPageNumber) docData_pairs).
  { unfold pageData_pairs.
    induction docData_pairs as [|d l IH]; [done|]. cbn [List.filter].
    rewrite filter_cons, IH.
    destruct (Z.eqb_spec (KeyValuePair.pageNumber d) currentPageNumber);
      case_decide; done. }
  split; [exact Heq|]. split.
  - intros d. unfold pageData_pairs. rewrite filter_In, Z.eqb_eq. tauto.
  - rewrite Heq. apply sublist_filter.
Qed.

(** The page-level pairs that the view keeps between renders are those of
    the current render. *)
Lemma pageData_pairs_memo_value (same : _ → _ → bool)
    (kept : option (memo (list KeyValuePair.t * Z) (list KeyValuePair.t)))
    (docData_pairs : list KeyValuePair.t) (currentPageNumber : Z) :
  (∀ d d', same d d' = true → d = d') →
  (∀ m, kept = Some m
        → memo_value m = pageData_pairs (memo_deps m).1 (memo_deps m).2) →
  memo_value (pageData_pairs_memo same kept (docData_pairs, currentPageNumber))
  = pageData_pairs docData_pairs currentPageNumber.
Proof.
  intros Hsame Hkept. unfold pageData_pairs_memo.
  by rewrite useMemo_value.
Qed.

(** C10: the marks of the key-value tab are, for each pair in order, the
    mark of its key box ([id], type 'key') and then the mark of its value
    box ([id], type 'value'): [2 * N] marks for [N] pairs. *)
Theorem pagePairsAsMarks_key_then_value (pairs : list KeyValuePair.t) :
  length (pagePairsAsMarks pairs) = 2 * length pairs
  ∧ ∀ i : nat,
      pagePairsAsMarks pairs !! (2 * i)
      = (λ p, {| Mark.box := KeyValuePair.keyBoundingBox p;
                 Mark.id := KeyValuePair.id p;
                 Mark.type := "key" |}) <$> pairs !! i
      ∧ pagePairsAsMarks pairs !! (2 * i + 1)
        = (λ p, {| Mark.box := KeyValuePair.valueBoundingBox p;
                   Mark.id := KeyValuePair.id p;
                   Mark.type := "value" |}) <$> pairs !! i.
Proof.
  induction pairs as [|p pairs [IHlen IH]].
  - split; [done|]. intros i. by split.
  - rewrite pagePairsAsMarks_cons. split.
    + cbn [length]. lia.
    + intros [|i].
      * by split.
      * replace (2 * S i) with (S (S (2 * i))) by lia.
        replace (S (S (2 * i)) + 1) with (S (S (2 * i + 1))) by lia.
        cbn [lookup list_lookup]. apply IH.
Qed.

(** ** The redaction controller *)

(** C3: [redactAllValues] on a page with the pairs [p_1 .. p_N] appends [N]
    boxes to the redaction set of the current page of the current document,
    the [i]-th of them the [valueBoundingBox] of [p_i]; no other redaction set
    changes. *)
Theorem redactAllValues_appends_value_boxes
    (id : string) (docData_pairs : list KeyValuePair.t)
    (getPageWordsBySearch : Z → string → list BoundingBox) (w : view) :
  let currentPageNumber := Store.currentPageNumber (store w) in
  let pairs := pageData_pairs docData_pairs currentPageNumber in
  let before := Store.redactionSet (store w) id currentPageNumber in
  let w' := step id docData_pairs getPageWordsBySearch w RedactAllValues in
  let after := Store.redactionSet (store w') id currentPageNumber in
  after = before ++ List.map KeyValuePair.valueBoundingBox pairs
  ∧ length after = length before + length pairs
  ∧ (∀ i : nat, i < length before → after !! i = before !! i)
  ∧ (∀ i : nat, after !! (length before + i)
                = KeyValuePair.valueBoundingBox <$> pairs !! i)
  ∧ (∀ id' pageNumber', (id', pageNumber') ≠ (id, currentPageNumber) →
       Store.redactionSet (store w') id' pageNumber'
       = Store.redactionSet (store w) id' pageNumber').
Proof.
  intros currentPageNumber pairs before w' after.
  assert (Hafter : after = before ++ List.map KeyValuePair.valueBoundingBox pairs).
  { subst after w'. cbn. apply redactionSet_addRedactions. }
  split; [exact Hafter|]. rewrite Hafter. repeat split.
  - by rewrite length_app, length_map.
  - intros i Hi. by rewrite lookup_app_l.
  - intros i. rewrite lookup_app_r by lia.
    replace (length before + i - length before) with i by lia.
    apply list_lookup_fmap.
  - intros id' pageNumber' Hne. subst w'. cbn.
    by apply redactionSet_addRedactions_other.
Qed.

(** C4: [redactMatches] dispatches the addition of the boxes of
    [wordsMatchingSearch] to the redaction set of the current page of the
    current document and then the reset of the search query; afterwards the
    set ends with these boxes and the query is the empty string. *)
Theorem redactMatches_appends_and_clears_query
    (id : string) (docData_pairs : list KeyValuePair.t)
    (getPageWordsBySearch : Z → string → list BoundingBox) (w : view) :
  let currentPageNumber := Store.currentPageNumber (store w) in
  let wordsMatchingSearch :=
    getPageWordsBySearch currentPageNumber (Store.searchQuery (store w)) in
  let w' := step id docData_pairs getPageWordsBySearch w RedactMatches in
  redactMatches id currentPageNumber wordsMatchingSearch
  = [Store.addRedactions id currentPageNumber wordsMatchingSearch;
     Store.setSearchQuery ""]
  ∧ store w' = Store.reduce
                 (Store.reduce (store w)
                    (Store.addRedactions id currentPageNumber wordsMatchingSearch))
                 (Store.setSearchQuery "")
  ∧ Store.redactionSet (store w') id currentPageNumber
    = Store.redactionSet (store w) id currentPageNumber ++ wordsMatchingSearch
  ∧ Store.searchQuery (store w') = ""
  ∧ Store.currentPageNumber (store w') = currentPageNumber.
Proof.
  intros currentPageNumber wordsMatchingSearch w'.
  repeat split.
  subst w'. cbn -[Store.redactionSet].
  change (Store.redactionSet _ id currentPageNumber) with
    (Store.redactionSet
       (Store.reduce (store w)
          (Store.addRedactions id currentPageNumber wordsMatchingSearch))
       id currentPageNumber) at 1.
  apply redactionSet_addRedactions.
Qed.

(** ** Life cycle *)

Lemma redactionSet_headerProps st heading id pageNumber :
  Store.redactionSet (Store.reduce st (Store.setHeaderProps heading)) id pageNumber
  = Store.redactionSet st id pageNumber.
Proof. reflexivity. Qed.

Lemma run_cons (id : string) (docData_pairs : list KeyValuePair.t)
    (getPageWordsBySearch : Z → string → list BoundingBox)
    (e : event) (events : list event) (w : view) :
  run id docData_pairs getPageWordsBySearch w (e :: events)
  = run id docData_pairs getPageWordsBySearch
      (step id docData_pairs getPageWordsBySearch w e) events.
Proof. reflexivity. Qed.



(** C8: the effects of a fresh mount dispatch [setCurrentPageNumber(1)], and
    after them the current page number is 1, whatever the store held
    before. *)
Theorem mount_resets_currentPageNumber
    (id : string) (documentName : option string) (isDocumentFetched : bool)
    (st : Store.state) :
  In (Store.setCurrentPageNumber 1) (mount_effects documentName)
  ∧ Store.currentPageNumber (store (mount id documentName isDocumentFetched st))
    = 1%Z.
Proof.
  split; [by left|]. by destruct isDocumentFetched.
Qed.

(** The hook keeps no update of the status once its ref is false. *)
Lemma setStatus_when_mounted_unmounted (s : string) (h : FetchHook.t) :
  FetchHook.isMounted h = false → FetchHook.setStatus_when_mounted s h = h.
Proof. intros Hm. unfold FetchHook.setStatus_when_mounted. by rewrite Hm. Qed.

Lemma step_unmounted (id : string) (docData_pairs : list KeyValuePair.t)
    (getPageWordsBySearch : Z → string → list BoundingBox)
    (w : view) (e : event) :
  FetchHook.isMounted (fetchHook w) = false →
  fetchHook (step id docData_pairs getPageWordsBySearch w e) = fetchHook w.
Proof.
  intros Hm. destruct e; cbn; try done.
  - unfold FetchHook.effect.
    destruct (negb isDocumentFetched); cbn;
      by apply setStatus_when_mounted_unmounted.
  - by apply setStatus_when_mounted_unmounted.
  - by apply setStatus_when_mounted_unmounted.
  - unfold FetchHook.cleanup. destruct (fetchHook w); cbn in *; congruence.
Qed.

Lemma run_unmounted (id : string) (docData_pairs : list KeyValuePair.t)
    (getPageWordsBySearch : Z → string → list BoundingBox)
    (events : list event) (w : view) :
  FetchHook.isMounted (fetchHook w) = false →
  fetchHook (run id docData_pairs getPageWordsBySearch w events) = fetchHook w.
Proof.
  revert w. induction events as [|e events IH]; intros w Hm; [done|].
  rewrite run_cons, IH; rewrite step_unmounted; done.
Qed.

(** C9: each of the three updates of the status ('pending', 'success',
    'error') is made only while the liveness flag holds; once the view was
    torn down, whatever happens afterwards (the fetch resolving or rejecting
    among it) makes no update of the status, and the status stays what it
    was at teardown. *)
Theorem no_status_update_after_unmount
    (id : string) (docData_pairs : list KeyValuePair.t)
    (getPageWordsBySearch : Z → string → list BoundingBox)
    (w : view) (events : list event) :
  let step := step id docData_pairs getPageWordsBySearch in
  let run := run id docData_pairs getPageWordsBySearch in
  let after := fetchHook (run (step w Unmount) events) in
  FetchHook.isMounted after = false
  ∧ FetchHook.updates after = FetchHook.updates (fetchHook w)
  ∧ FetchHook.status after = FetchHook.status (fetchHook w)
  ∧ (∀ (h : FetchHook.t) (b : bool),
       FetchHook.updates (FetchHook.fulfilled h)
       = (if FetchHook.isMounted h then FetchHook.updates h ++ ["success"]
          else FetchHook.updates h)
       ∧ FetchHook.updates (FetchHook.rejected h)
         = (if FetchHook.isMounted h then FetchHook.updates h ++ ["error"]
            else FetchHook.updates h)
       ∧ FetchHook.updates (FetchHook.effect id b h).1
         = (if FetchHook.isMounted h
            then FetchHook.updates h ++ [if b then "success" else "pending"]
            else FetchHook.updates h)).
Proof.
  intros step0 run0 after. subst step0 run0 after.
  rewrite run_unmounted by done.
  repeat split.
  - unfold FetchHook.fulfilled, FetchHook.setStatus_when_mounted.
    by destruct (FetchHook.isMounted h).
  - unfold FetchHook.rejected, FetchHook.setStatus_when_mounted.
    by destruct (FetchHook.isMounted h).
  - unfold FetchHook.effect, FetchHook.setStatus_when_mounted.
    by destruct b, (FetchHook.isMounted h).
Qed.

(** ** The name of the exported file *)

Section FileName.

Implicit Types (s stem ext dir file : string) (c : ascii).

Lemma append_empty s : "" +:+ s = s.
Proof. reflexivity. Qed.

Lemma append_String c s s' : String c s +:+ s' = String c (s +:+ s').
Proof. reflexivity. Qed.

Lemma length_append s s' :
  String.length (s +:+ s') = String.length s + String.length s'.
Proof.
  induction s as [|c s IH]; [done|].
  rewrite append_String. cbn. by rewrite IH.
Qed.

Lemma pop_snoc {A} (a : list A) (v : A) : JsString.pop (a ++ [v]) = Some v.
Proof.
  unfold JsString.pop. rewrite List.map_app. cbn. apply List.last_last.
Qed.

Lemma contains_cons c c' s :
  JsString.contains c (String c' s)
  = Ascii.eqb c c' || JsString.contains c s.
Proof. reflexivity. Qed.

Lemma split_no_separator c file :
  JsString.contains c file = false → JsString.split c file = [file].
Proof.
  induction file as [|c' file IH]; [done|].
  rewrite contains_cons. intros [Hc Hfile]%orb_false_elim.
  cbn [JsString.split]. rewrite Ascii.eqb_sym, Hc. by rewrite IH.
Qed.

Lemma split_directory c dir file :
  JsString.contains c file = false →
  ∃ piece pieces,
    JsString.split c (dir +:+ String c file) = (piece :: pieces) ++ [file].
Proof.
  intros Hfile.
  induction dir as [|c' dir (piece & pieces & IH)];
    rewrite ?append_empty, ?append_String; cbn [JsString.split].
  - rewrite Ascii.eqb_refl. exists "", []. by rewrite split_no_separator.
  - destruct (Ascii.eqb c' c).
    + exists "", (piece :: pieces). by rewrite IH.
    + rewrite IH. by exists (String c' piece), pieces.
Qed.

Lemma non_dots_to_end_dot s ext :
  JsString.non_dots_to_end (s +:+ String "." ext) = false.
Proof.
  induction s as [|c s IH]; rewrite ?append_empty, ?append_String.
  - cbn. by destruct ext.
  - cbn [JsString.non_dots_to_end]. rewrite IH.
    destruct (s +:+ String "." ext) eqn:E.
    + by destruct s.
    + apply andb_false_r.
Qed.

Lemma non_dots_to_end_ext ext :
  ext ≠ "" → JsString.contains "." ext = false →
  JsString.non_dots_to_end ext = true.
Proof.
  induction ext as [|c ext IH]; [done|]. intros _.
  rewrite contains_cons. intros [Hc Hext]%orb_false_elim.
  assert (Hdot : JsString.is_dot c = false).
  { unfold JsString.is_dot. by rewrite Ascii.eqb_sym. }
  cbn [JsString.non_dots_to_end]. rewrite Hdot.
  destruct ext; [done|]. rewrite IH; done.
Qed.

Lemma replace_ext_stem by_ stem ext :
  JsString.non_dots_to_end ext = true →
  JsString.replace_ext by_ (stem +:+ String "." ext) = stem +:+ by_.
Proof.
  intros Hext.
  induction stem as [|c stem IH]; rewrite ?append_empty, ?append_String.
  - cbn. by rewrite Hext.
  - cbn [JsString.replace_ext JsString.ext_matches_here].
    rewrite non_dots_to_end_dot, andb_false_r. by rewrite IH.
Qed.

End FileName.

(** The name of the download: when the final path component of the object
    name ends in an extension, a '.' followed by one or more characters
    other than '.', the name is that component with the extension replaced
    by '-REDACTED.png'. *)
Lemma downloadName_replaces_extension (dir stem ext : string) :
  JsString.contains "/" stem = false →
  JsString.contains "/" ext = false →
  JsString.contains "." ext = false →
  ext ≠ "" →
  downloadName (stem +:+ "." +:+ ext) = Return (stem +:+ "-REDACTED.png")
  ∧ downloadName (dir +:+ "/" +:+ stem +:+ "." +:+ ext)
    = Return (stem +:+ "-REDACTED.png").
Proof.
  intros Hstem Hslash Hdot Hext.
  change ("." +:+ ext) with (String "." ext).
  change ("/" +:+ stem +:+ String "." ext)
    with (String "/" (stem +:+ String "." ext)).
  assert (Hfile : JsString.contains "/" (stem +:+ String "." ext) = false).
  { clear Hdot Hext. induction stem as [|c stem IH]; [exact Hslash|].
    rewrite contains_cons in Hstem. apply orb_false_elim in Hstem as [Hc Hstem].
    rewrite append_String, contains_cons, Hc. by apply IH. }
  unfold downloadName. split.
  - rewrite split_no_separator by done. cbn.
    by rewrite replace_ext_stem by by apply non_dots_to_end_ext.
  - destruct (split_directory "/" dir _ Hfile) as (piece & pieces & ->).
    rewrite pop_snoc. cbn.
    by rewrite replace_ext_stem by by apply non_dots_to_end_ext.
Qed.

Example downloadName_two_dots :
  downloadName "a/b.tar.gz" = Return "b.tar-REDACTED.png".
Proof. reflexivity. Qed.

Example downloadName_trailing_dot :
  downloadName "a/report." = Return "report.".
Proof. reflexivity. Qed.

(** ** The download that the export starts *)

(** C6, as the code has it: the export of a page surface with pixels, at a
    page that has an entry in the redactions, starts a download of type
    'image/png'; when the final path component of the object name ends in
    an extension, a '.' followed by one or more characters other than '.',
    the download is named as that component with the extension replaced by
    '-REDACTED.png'. The arithmetic of the rectangles, exact or binary64,
    has no part in it. *)
Theorem downloadRedacted_names_png_download
    (blend : Q → colour → colour → colour) (theThing : Element.t)
    (redactions : Redactions) (redactions64 : Redactions64)
    (currentPageNumber : Z) (reds : list BoundingBox)
    (reds64 : list BoundingBox64) (dir stem ext objectName : string) :
  has_pixels theThing →
  redactions !! currentPageNumber = Some reds →
  redactions64 !! currentPageNumber = Some reds64 →
  JsString.contains "/" stem = false →
  JsString.contains "/" ext = false →
  JsString.contains "." ext = false →
  ext ≠ "" →
  objectName = stem +:+ "." +:+ ext
  ∨ objectName = dir +:+ "/" +:+ stem +:+ "." +:+ ext →
  (∃ d,
     downloadRedacted blend (Some theThing) (Some redactions)
       currentPageNumber objectName = Return d
     ∧ download_type d = "image/png"
     ∧ download_name d = stem +:+ "-REDACTED.png")
  ∧ (∃ d,
       downloadRedacted64 blend (Some theThing) (Some redactions64)
         currentPageNumber objectName = Return d
       ∧ download64_type d = "image/png"
       ∧ download64_name d = stem +:+ "-REDACTED.png").
Proof.
  intros _ Hpage Hpage64 Hstem Hslash Hdot Hext HobjectName.
  assert (Hname : downloadName objectName = Return (stem +:+ "-REDACTED.png")).
  { destruct (downloadName_replaces_extension dir stem ext Hstem Hslash Hdot
                Hext) as [Hfile Hpath].
    by destruct HobjectName as [->| ->]. }
  split.
  - unfold downloadRedacted. cbn [defined mbind completion_bind].
    rewrite Hpage, Hname. cbn [defined mbind completion_bind mret completion_ret].
    eexists. by split; [reflexivity|].
  - unfold downloadRedacted64. cbn [defined mbind completion_bind].
    rewrite Hpage64, Hname. cbn [defined mbind completion_bind mret completion_ret].
    eexists. by split; [reflexivity|].
Qed.

(** C6 for the object name 'public/1234/invoice.pdf' on the white canvas of
    10 by 10 with one box on page 1: a download of type 'image/png' named
    'invoice-REDACTED.png'. *)
Lemma downloadRedacted_names_png_download_witness :
  has_pixels example_surface
  ∧ (∃ d,
       downloadRedacted (λ _ top _, top) (Some example_surface)
         (Some {[1%Z := [example_box]]}) 1 "public/1234/invoice.pdf" = Return d
       ∧ download_type d = "image/png"
       ∧ download_name d = "invoice-REDACTED.png")
  ∧ (∃ d,
       downloadRedacted64 (λ _ top _, top) (Some example_surface)
         (Some {[1%Z := [example_box64]]}) 1 "public/1234/invoice.pdf"
       = Return d
       ∧ download64_type d = "image/png"
       ∧ download64_name d = "invoice-REDACTED.png").
Proof.
  assert (Hsurface : has_pixels example_surface) by (by repeat split).
  split; [exact Hsurface|].
  apply (downloadRedacted_names_png_download (λ _ top _, top) example_surface
           {[1%Z := [example_box]]} {[1%Z := [example_box64]]} 1%Z
           [example_box] [example_box64] "public/1234" "invoice" "pdf"
           "public/1234/invoice.pdf" Hsurface);
    [reflexivity | reflexivity | reflexivity | reflexivity | reflexivity
    | discriminate | right; reflexivity].
Defined.

(** C6, as stated, fails for an object name without an extension: for
    'uploads/scan' the export starts a download of type 'image/png' that is
    named 'scan', the final path component itself, which does not end in
    '-REDACTED.png'. *)
Lemma downloadRedacted_without_extension :
  downloadName "uploads/scan" = Return "scan"
  ∧ (∃ d,
       downloadRedacted (λ _ top _, top) (Some example_surface)
         (Some {[1%Z := [example_box]]}) 1 "uploads/scan" = Return d
       ∧ download_type d = "image/png"
       ∧ download_name d = "scan")
  ∧ (∃ d,
       downloadRedacted64 (λ _ top _, top) (Some example_surface)
         (Some {[1%Z := [example_box64]]}) 1 "uploads/scan" = Return d
       ∧ download64_type d = "image/png"
       ∧ download64_name d = "scan")
  ∧ ¬ ∃ stem, "scan" = stem +:+ "-REDACTED.png".
Proof.
  split; [reflexivity|].
  split; [eexists; by split; [reflexivity|]|].
  split; [eexists; by split; [reflexivity|]|].
  intros [stem Heq]. apply (f_equal String.length) in Heq.
  rewrite length_append in Heq. cbn in Heq. lia.
Qed.

(** ** The raster export *)

Section Rationals.

Local Open Scope Q_scope.

Lemma Qmax_cases (a b : Q) :
  (Qmax a b = a ∧ b <= a) ∨ (Qmax a b = b ∧ a <= b).
Proof.
  unfold Qmax, GenericMinMax.gmax.
  destruct (a ?= b) eqn:E.
  - left. split; [done|]. apply Qeq_alt in E. rewrite E. apply Qle_refl.
  - right. split; [done|]. apply Qlt_alt in E. by apply Qlt_le_weak.
  - left. split; [done|]. apply Qgt_alt in E. by apply Qlt_le_weak.
Qed.

Lemma Qmin_cases (a b : Q) :
  (Qmin a b = a ∧ a <= b) ∨ (Qmin a b = b ∧ b <= a).
Proof.
  unfold Qmin, GenericMinMax.gmin.
  destruct (a ?= b) eqn:E.
  - left. split; [done|]. apply Qeq_alt in E. rewrite E. apply Qle_refl.
  - left. split; [done|]. apply Qlt_alt in E. by apply Qlt_le_weak.
  - right. split; [done|]. apply Qgt_alt in E. by apply Qlt_le_weak.
Qed.

Ltac split_minmax cases :=
  let E := fresh in
  let H := fresh in
  destruct cases as [[E H]|[E H]]; rewrite E in *; clear E.

Ltac minmax :=
  repeat match goal with
    | |- context [Qmax ?a ?b] => split_minmax (Qmax_cases a b)
    | |- context [Qmin ?a ?b] => split_minmax (Qmin_cases a b)
    | _ : context [Qmax ?a ?b] |- _ => split_minmax (Qmax_cases a b)
    | _ : context [Qmin ?a ?b] |- _ => split_minmax (Qmin_cases a b)
    end.

(** Linear arithmetic over the positions of pixels, taken as unknowns. *)
Ltac pixels_lra :=
  repeat match goal with
    | |- context [@of_N Q _ ?i] =>
        let q := fresh "q" in set (q := @of_N Q _ i) in *; clearbody q
    | _ : context [@of_N Q _ ?i] |- _ =>
        let q := fresh "q" in set (q := @of_N Q _ i) in *; clearbody q
    end;
  minmax; lra.

(** A pixel column between the two edges is covered whole. *)
Lemma overlap_inside (lo hi : Q) (i : N) :
  lo <= of_N i → of_N i + 1 <= hi → overlap lo hi i == 1.
Proof. intros Hlo Hhi. unfold overlap. pixels_lra. Qed.

(** A pixel column left of the low edge or right of the high edge is not
    covered. *)
Lemma overlap_outside (lo hi : Q) (i : N) :
  of_N i + 1 <= lo ∨ hi <= of_N i → overlap lo hi i == 0.
Proof. intros Hout. unfold overlap. pixels_lra. Qed.

(** The pixels that a rectangle of width and height at least 0 covers
    whole, and those it does not touch. *)
Lemma coverage_inside (x y w h : Q) (i j : N) :
  0 <= w → 0 <= h →
  x <= of_N i → of_N i + 1 <= x + w →
  y <= of_N j → of_N j + 1 <= y + h →
  coverage x y w h i j == 1.
Proof.
  intros Hw Hh Hx0 Hx1 Hy0 Hy1. unfold coverage.
  rewrite !overlap_inside; [lra| | | |]; pixels_lra.
Qed.

Lemma coverage_outside (x y w h : Q) (i j : N) :
  0 <= w → 0 <= h →
  of_N i + 1 <= x ∨ x + w <= of_N i ∨ of_N j + 1 <= y ∨ y + h <= of_N j →
  coverage x y w h i j == 0.
Proof.
  intros Hw Hh [Hout|[Hout|[Hout|Hout]]]; unfold coverage.
  - rewrite (overlap_outside _ _ i); [lra|]. pixels_lra.
  - rewrite (overlap_outside _ _ i); [lra|]. pixels_lra.
  - rewrite (overlap_outside _ _ j); [lra|]. pixels_lra.
  - rewrite (overlap_outside _ _ j); [lra|]. pixels_lra.
Qed.

End Rationals.

Section RasterFacts.

Variable blend : Q → colour → colour → colour.







End RasterFacts.

Section ExtentFacts.

Local Open Scope Q_scope.

Variables cnv_width cnv_height : N.

Lemma of_N_nonneg (n : N) : 0 <= of_N n.
Proof. unfold Qle. cbn. lia. Qed.


Lemma fill_size (red : BoundingBox) :
  proper red →
  0 <= Width red * of_N cnv_width + 2 * 2
  ∧ 0 <= Height red * of_N cnv_height + 2 * 2.
Proof.
  intros [Hw Hh].
  pose proof (Qmult_le_0_compat _ _ Hw (of_N_nonneg cnv_width)).
  pose proof (Qmult_le_0_compat _ _ Hh (of_N_nonneg cnv_height)).
  split; lra.
Qed.

Lemma fill_coverage_within (red : BoundingBox) (i j : N) :
  proper red → within (margin_extent cnv_width cnv_height red) i j →
  fill_coverage cnv_width cnv_height red i j == 1.
Proof.
  intros Hproper (Hx0 & Hx1 & Hy0 & Hy1).
  destruct (fill_size red Hproper) as [Hw Hh].
  unfold fill_coverage, Cnv.fillRect_arguments, Cnv.x, Cnv.y, Cnv.margin.
  cbn -[of_N] in *. change (@of_N Q _ 2) with 2.
  apply coverage_inside; try done; lra.
Qed.

Lemma fill_coverage_apart (red : BoundingBox) (i j : N) :
  proper red → apart (margin_extent cnv_width cnv_height red) i j →
  fill_coverage cnv_width cnv_height red i j == 0.
Proof.
  intros Hproper Hapart.
  destruct (fill_size red Hproper) as [Hw Hh].
  unfold fill_coverage, Cnv.fillRect_arguments, Cnv.x, Cnv.y, Cnv.margin.
  unfold apart in Hapart.
  cbn -[of_N] in *. change (@of_N Q _ 2) with 2.
  apply coverage_outside; try done.
  destruct Hapart as [?|[?|[?|?]]]; [left|right;left|right;right;left|right;right;right]; lra.
Qed.

End ExtentFacts.



(** The arithmetic of the example in IEEE binary64, the numbers of
    JavaScript: the four arguments of [fillRect] are exactly 78, 58, 164 and
    64, as in the rationals. *)
#[warnings="-inexact-float"]
Lemma fillRect_arguments_binary64 :
  Cnv.fillRect_arguments 800 600
    {| Left := 0.1; Top := 0.1; Width := 0.2; Height := 0.1 |}%float
  = (78, 58, 164, 64)%float.
Proof. vm_compute. reflexivity. Qed.

(** ** The raster export in binary64 *)

Section Raster64Facts.

Variable blend : Q → colour → colour → colour.

Local Open Scope Q_scope.







End Raster64Facts.






(** C2, the export at a page without an entry: reading the redactions of
    the page throws a [TypeError], and so does reading them from a document
    without redactions; no download is made. *)
Theorem downloadRedacted_throws_without_entry
    (blend : Q → colour → colour → colour) (theThing : option Element.t)
    (redactions : Redactions) (currentPageNumber : Z) (objectName : string) :
  redactions !! currentPageNumber = None →
  downloadRedacted blend theThing (Some redactions) currentPageNumber objectName
  = Throw TypeError
  ∧ downloadRedacted blend theThing None currentPageNumber objectName
    = Throw TypeError.
Proof.
  intros Hpage. unfold downloadRedacted.
  destruct theThing as [theThing|]; cbn; [|done]. by rewrite Hpage.
Qed.

(** C2 at a document with one redaction on page 1, seen at page 2: the
    buttons are shown and the export throws. *)
Lemma downloadRedacted_throws_without_entry_witness :
  redaction_buttons_shown "redaction" (Some {[1%Z := [example_box]]}) = true
  ∧ ({[1%Z := [example_box]]} : Redactions) !! 2%Z = None
  ∧ downloadRedacted (λ _ top _, top) (Some example_surface)
      (Some {[1%Z := [example_box]]}) 2 "public/invoice.pdf" = Throw TypeError
  ∧ downloadRedacted (λ _ top _, top) (Some example_surface) None 2
      "public/invoice.pdf" = Throw TypeError.
Proof.
  split; [reflexivity|]. split; [reflexivity|].
  apply (downloadRedacted_throws_without_entry (λ _ top _, top)
           (Some example_surface) {[1%Z := [example_box]]} 2%Z
           "public/invoice.pdf").
  reflexivity.
Defined.


(** The page without an entry is reached through the view itself: one
    redaction on page 1, then the switch to page 2. *)
Lemma page_without_entry_reached (id : string)
    (docData_pairs : list KeyValuePair.t)
    (getPageWordsBySearch : Z → string → list BoundingBox) (w : view) :
  Store.redactions (store w) !! id = None →
  let w' := run id docData_pairs getPageWordsBySearch w
              [Redact example_box (Some 1%Z); SwitchPage 2] in
  Store.currentPageNumber (store w') = 2%Z
  ∧ Store.redactions (store w') !! id = Some {[1%Z := [example_box]]}
  ∧ redaction_buttons_shown "redaction" (Store.redactions (store w') !! id)
    = true.
Proof.
  intros Hnone w'.
  assert (Hreds : Store.redactions (store w') !! id
                  = Some {[1%Z := [example_box]]}).
  { subst w'. cbn. unfold Store.redactionSet. rewrite Hnone. cbn.
    by rewrite lookup_insert_eq. }
  split; [done|]. split; [exact Hreds|]. by rewrite Hreds.
Qed.

(** ** Scenarios *)

(** C3 on page 1 of the example document: the value boxes of 'a' and 'c'. *)
Lemma redactAllValues_appends_value_boxes_witness :
  Store.redactionSet
    (store (step "doc" example_pairs (λ _ _, []) example_view RedactAllValues))
    "doc" 1
  = [KeyValuePair.valueBoundingBox (example_pair "a" 1);
     KeyValuePair.valueBoundingBox (example_pair "c" 1)].
Proof.
  exact (proj1 (redactAllValues_appends_value_boxes "doc" example_pairs
                  (λ _ _, []) example_view)).
Defined.

(** C4 with two matching words and the query 'foo'. *)
Lemma redactMatches_appends_and_clears_query_witness :
  let w' := step "doc" example_pairs
              (λ _ _, [example_box; KeyValuePair.valueBoundingBox (example_pair "a" 1)])
              example_view RedactMatches in
  Store.redactionSet (store w') "doc" 1
  = [example_box; KeyValuePair.valueBoundingBox (example_pair "a" 1)]
  ∧ Store.searchQuery (store w') = "".
Proof.
  pose proof (redactMatches_appends_and_clears_query "doc" example_pairs
                (λ _ _, [example_box;
                         KeyValuePair.valueBoundingBox (example_pair "a" 1)])
                example_view) as (_ & _ & Hset & Hquery & _).
  exact (conj Hset Hquery).
Defined.

(** C5 on the example document: 'c' is on page 1, 'b' is not. *)
Lemma pageData_pairs_exact_filter_witness :
  In (example_pair "c" 1) (pageData_pairs example_pairs 1)
  ∧ ¬ In (example_pair "b" 2) (pageData_pairs example_pairs 1).
Proof.
  pose proof (proj1 (proj2 (pageData_pairs_exact_filter example_pairs 1)))
    as Hin.
  split.
  - apply Hin. split; [|reflexivity]. right. right. by left.
  - intros [_ Hpage]%Hin. discriminate Hpage.
Defined.


(** C8 from page 7. *)
Lemma mount_resets_currentPageNumber_witness :
  Store.currentPageNumber
    (store (mount "doc" (Some "invoice.pdf") false
              {| Store.redactions := ∅;
                 Store.currentPageNumber := 7;
                 Store.searchQuery := "";
                 Store.headerProps := None |}))
  = 1%Z.
Proof.
  exact (proj2 (mount_resets_currentPageNumber "doc" (Some "invoice.pdf") false
                  {| Store.redactions := ∅;
                     Store.currentPageNumber := 7;
                     Store.searchQuery := "";
                     Store.headerProps := None |})).
Defined.

(** C9 for a fetch that is pending at unmount and resolves afterwards: the
    status stays 'pending'. *)
Lemma no_status_update_after_unmount_witness :
  let w := step "doc" example_pairs (λ _ _, []) example_view (FetchEffect false) in
  FetchHook.status (fetchHook w) = "pending"
  ∧ FetchHook.status
      (fetchHook (run "doc" example_pairs (λ _ _, []) w [Unmount; FetchFulfilled]))
    = "pending"
  ∧ FetchHook.status
      (fetchHook (run "doc" example_pairs (λ _ _, []) w [FetchFulfilled]))
    = "success".
Proof.
  intros w.
  pose proof (no_status_update_after_unmount "doc" example_pairs (λ _ _, []) w
                [FetchFulfilled]) as (_ & _ & Hstatus & _).
  split; [reflexivity|]. split; [exact Hstatus|reflexivity].
Defined.

(** C10 on two pairs: the third mark is the key mark of the second pair. *)
Lemma pagePairsAsMarks_key_then_value_witness :
  length (pagePairsAsMarks [example_pair "a" 1; example_pair "c" 1]) = 4
  ∧ pagePairsAsMarks [example_pair "a" 1; example_pair "c" 1] !! 2
    = Some {| Mark.box := KeyValuePair.keyBoundingBox (example_pair "c" 1);
              Mark.id := "c";
              Mark.type := "key" |}.
Proof.
  pose proof (pagePairsAsMarks_key_then_value
                [example_pair "a" 1; example_pair "c" 1]) as [Hlen Hmarks].
  exact (conj Hlen (proj1 (Hmarks 1))).
Defined.

(** * Further properties *)

(** ** File names *)

Section PathFacts.

Implicit Types (s path dir file stem ext : string) (c : ascii).

(** The pieces of a path: the last one has no '/', and the path is that
    piece alone or a directory, a '/' and that piece. *)
Lemma split_final_component path :
  ∃ pieces file,
    JsString.split "/" path = pieces ++ [file]
    ∧ JsString.contains "/" file = false
    ∧ ((pieces = [] ∧ path = file)
       ∨ (pieces ≠ [] ∧ ∃ dir, path = dir +:+ String "/" file)).
Proof.
  induction path as [|c path (pieces & file & Hsplit & Hfile & Hpath)].
  - exists [], "". do 2 (split; [done|]). by left.
  - cbn [JsString.split]. rewrite Hsplit.
    destruct (Ascii.eqb_spec c "/") as [->|Hc].
    + exists ("" :: pieces), file. repeat split; [done|]. right.
      split; [done|].
      destruct Hpath as [[_ ->]|[_ [dir ->]]].
      * by exists "".
      * by exists (String "/" dir).
    + destruct pieces as [|piece pieces].
      * destruct Hpath as [[_ ->]|[[] _]]; [|done].
        exists [], (String c file). split; [done|]. split; [|by left].
        rewrite contains_cons, Hfile, orb_false_r.
        apply Ascii.eqb_neq. congruence.
      * exists (String c piece :: pieces), file. repeat split; [done|]. right.
        split; [done|].
        destruct Hpath as [[[=] _]|[_ [dir ->]]]. by exists (String c dir).
Qed.

Lemma replace_ext_no_slash by_ s :
  JsString.contains "/" by_ = false → JsString.contains "/" s = false →
  JsString.contains "/" (JsString.replace_ext by_ s) = false.
Proof.
  intros Hby. induction s as [|c s IH]; [done|].
  rewrite contains_cons. intros [Hc Hs]%orb_false_elim.
  cbn [JsString.replace_ext]. destruct (JsString.ext_matches_here _); [done|].
  by rewrite contains_cons, Hc, IH.
Qed.

Lemma non_dots_to_end_inv ext :
  JsString.non_dots_to_end ext = true →
  ext ≠ "" ∧ JsString.contains "." ext = false.
Proof.
  induction ext as [|c ext IH]; [done|]. intros Hext. split; [done|].
  rewrite contains_cons.
  assert (Hc : JsString.is_dot c = false ∧ (ext = "" ∨ JsString.non_dots_to_end ext = true)).
  { cbn [JsString.non_dots_to_end] in Hext. destruct ext.
    - split; [by apply negb_true_iff|by left].
    - apply andb_prop in Hext as [Hc Hext].
      split; [by apply negb_true_iff|by right]. }
  destruct Hc as [Hc Hrest]. unfold JsString.is_dot in Hc.
  rewrite Ascii.eqb_sym, Hc. destruct Hrest as [->|Hrest]; [done|].
  by apply IH.
Qed.

(** The replacement changes nothing, or the string ends in an extension. *)
Lemma replace_ext_cases by_ s :
  JsString.replace_ext by_ s = s
  ∨ ∃ stem ext, s = stem +:+ String "." ext
                ∧ JsString.non_dots_to_end ext = true.
Proof.
  induction s as [|c s IH]; [by left|].
  cbn [JsString.replace_ext].
  destruct (JsString.ext_matches_here (String c s)) eqn:Hhere.
  - right. cbn in Hhere. apply andb_prop in Hhere as [Hc Hext].
    apply Ascii.eqb_eq in Hc as ->. by exists "", s.
  - destruct IH as [->|(stem & ext & -> & Hext)]; [by left|].
    right. by exists (String c stem), ext.
Qed.

End PathFacts.

(** X1: the name of the exported file is always defined (the [pop] never
    gives [undefined]) and never contains a '/'. *)
Theorem downloadName_defined_without_slash (objectName : string) :
  ∃ name, downloadName objectName = Return name
          ∧ JsString.contains "/" name = false.
Proof.
  destruct (split_final_component objectName)
    as (pieces & file & Hsplit & Hfile & _).
  unfold downloadName. rewrite Hsplit, pop_snoc. eexists. split; [done|].
  by apply replace_ext_no_slash.
Qed.

(** X2: the name under which the original is saved is what follows the last
    '/' of the document name, and the whole name where it has none. *)
Theorem originalName_after_last_slash (documentName : string) :
  ∃ file,
    originalName documentName = Return file
    ∧ JsString.contains "/" file = false
    ∧ (documentName = file ∨ ∃ dir, documentName = dir +:+ "/" +:+ file).
Proof.
  destruct (split_final_component documentName)
    as (pieces & file & Hsplit & Hfile & Hpath).
  exists file. unfold originalName. rewrite Hsplit, pop_snoc.
  do 2 (split; [done|]).
  destruct Hpath as [[_ ->]|[_ [dir ->]]]; [by left|]. right. by exists dir.
Qed.

(** X3: for one and the same path, the exported file gets the name of the
    original exactly when the final component has no extension; with an
    extension the two names differ. *)
Theorem downloadName_is_originalName_iff (path : string) :
  ∃ file,
    originalName path = Return file
    ∧ (downloadName path = Return file
       ↔ ¬ ∃ stem ext, file = stem +:+ "." +:+ ext
                       ∧ ext ≠ "" ∧ JsString.contains "." ext = false).
Proof.
  destruct (split_final_component path) as (pieces & file & Hsplit & _ & _).
  exists file. unfold originalName, downloadName. rewrite Hsplit, pop_snoc.
  split; [done|]. cbn. split.
  - intros [= Hsame] (stem & ext & -> & Hne & Hdot).
    change ("." +:+ ext) with (String "." ext) in Hsame.
    rewrite replace_ext_stem in Hsame by by apply non_dots_to_end_ext.
    by apply (inj (String.app stem)) in Hsame.
  - intros Hnone.
    destruct (replace_ext_cases "-REDACTED.png" file)
      as [->|(stem & ext & -> & Hext)]; [done|].
    destruct Hnone. exists stem, ext. split; [done|].
    by apply non_dots_to_end_inv.
Qed.

(** ** The raster export, further *)

Section ExportFacts.

Variable blend : Q → colour → colour → colour.

Lemma crisp_coverage (cnv_width cnv_height : N) (reds : list BoundingBox)
    (i j : N) :
  crisp cnv_width cnv_height reds i j →
  ∀ red, In red reds →
    (fill_coverage cnv_width cnv_height red i j == 0)%Q
    ∨ (fill_coverage cnv_width cnv_height red i j == 1)%Q.
Proof.
  intros Hcrisp red Hin. destruct (Hcrisp red Hin) as [Hproper [?|?]].
  - right. by apply fill_coverage_within.
  - left. by apply fill_coverage_apart.
Qed.



End ExportFacts.






(** ** The fetch hook and the commands of the view, further *)

Section ViewFacts.

Variable id : string.
Variable docData_pairs : list KeyValuePair.t.
Variable getPageWordsBySearch : Z → string → list BoundingBox.

Local Abbreviation step' := (step id docData_pairs getPageWordsBySearch).
Local Abbreviation run' := (run id docData_pairs getPageWordsBySearch).

Lemma run_snoc (w : view) (events : list event) (e : event) :
  run' w (events ++ [e]) = step' (run' w events) e.
Proof. unfold run. by rewrite fold_left_app. Qed.

Lemma step_keeps_mounted (w : view) (e : event) :
  is_unmount e = false →
  FetchHook.isMounted (fetchHook (step' w e))
  = FetchHook.isMounted (fetchHook w).
Proof.
  intros He. destruct e; try done; cbn;
    unfold FetchHook.effect, FetchHook.fulfilled, FetchHook.rejected,
      FetchHook.setStatus_when_mounted;
    try destruct (negb isDocumentFetched);
    by destruct (FetchHook.isMounted (fetchHook w)) eqn:E.
Qed.

Lemma run_keeps_mounted (events : list event) (w : view) :
  forallb (λ e, negb (is_unmount e)) events = true →
  FetchHook.isMounted (fetchHook (run' w events))
  = FetchHook.isMounted (fetchHook w).
Proof.
  revert w. induction events as [|e events IH]; intros w Hall; [done|].
  cbn in Hall. apply andb_prop in Hall as [He Hall].
  rewrite run_cons, IH by done.
  apply step_keeps_mounted. by apply negb_true_iff.
Qed.

Lemma status_setStatus (s : string) (h : FetchHook.t) :
  FetchHook.isMounted h = true →
  FetchHook.status (FetchHook.setStatus_when_mounted s h) = s.
Proof.
  intros Hm. unfold FetchHook.setStatus_when_mounted, FetchHook.status.
  rewrite Hm. cbn. apply List.last_last.
Qed.

Lemma step_commands (w : view) (e : event) :
  store (step' w e)
  = Store.dispatch (commands id docData_pairs getPageWordsBySearch w e) (store w).
Proof. destruct e; try done. cbn. by destruct isDocumentFetched. Qed.

Lemma commands_target (w : view) (e : event) (a : Store.action) (id' : string) :
  In a (commands id docData_pairs getPageWordsBySearch w e) →
  target a = Some id' → id' = id.
Proof.
  destruct e; cbn; try done.
  - destruct isDocumentFetched; cbn; [done|]. by intros [<-|[]] [= <-].
  - by intros [<-|[<-|[]]] [=].
  - by intros [<-|[<-|[]]] [=].
  - by intros [<-|[]] [=].
  - by intros [<-|[]] [=].
  - by intros [<-|[]] [=].
  - by intros [<-|[]] [=].
Qed.

End ViewFacts.

(** X10: while the view is mounted the status is that of the latest step of
    the fetch hook, whichever fetch it belongs to: after a rejection the
    status is 'error' and the view shows neither the loading indicator nor
    the content, also when an earlier event had set 'success'. *)
Theorem status_is_latest_hook_step
    (id : string) (docData_pairs : list KeyValuePair.t)
    (getPageWordsBySearch : Z → string → list BoundingBox)
    (w : view) (events : list event) :
  FetchHook.isMounted (fetchHook w) = true →
  forallb (λ e, negb (is_unmount e)) events = true →
  let after e :=
    FetchHook.status
      (fetchHook (run id docData_pairs getPageWordsBySearch w (events ++ [e]))) in
  after FetchFulfilled = "success"
  ∧ after FetchRejected = "error"
  ∧ after (FetchEffect true) = "success"
  ∧ after (FetchEffect false) = "pending"
  ∧ rendered (after FetchFulfilled) = Content
  ∧ rendered (after FetchRejected) = Blank
  ∧ rendered (after (FetchEffect false)) = Loading.
Proof.
  intros Hm Hevents after.
  assert (Hmounted : FetchHook.isMounted
            (fetchHook (run id docData_pairs getPageWordsBySearch w events))
          = true).
  { by rewrite run_keeps_mounted. }
  assert (H1 : after FetchFulfilled = "success").
  { subst after. cbn beta. rewrite run_snoc. by apply status_setStatus. }
  assert (H2 : after FetchRejected = "error").
  { subst after. cbn beta. rewrite run_snoc. by apply status_setStatus. }
  assert (H3 : after (FetchEffect true) = "success").
  { subst after. cbn beta. rewrite run_snoc. by apply status_setStatus. }
  assert (H4 : after (FetchEffect false) = "pending").
  { subst after. cbn beta. rewrite run_snoc. by apply status_setStatus. }
  rewrite H1, H2, H3, H4. by repeat split.
Qed.

Lemma status_is_latest_hook_step_witness :
  FetchHook.status
    (fetchHook
       (run "doc" example_pairs (λ _ _, []) example_view
          ([FetchEffect false; FetchEffect false; FetchFulfilled]
           ++ [FetchRejected])))
  = "error".
Proof.
  exact (proj1 (proj2
           (status_is_latest_hook_step "doc" example_pairs (λ _ _, [])
              example_view [FetchEffect false; FetchEffect false; FetchFulfilled]
              eq_refl eq_refl))).
Defined.

(** X11: once the view has been mounted the status is 'pending', 'success'
    or 'error', whatever happens later: the initial empty status is never
    seen again. *)
Theorem status_after_mount
    (id : string) (documentName : option string)
    (docData_pairs : list KeyValuePair.t)
    (getPageWordsBySearch : Z → string → list BoundingBox)
    (isDocumentFetched : bool) (st : Store.state) (events : list event) :
  let status :=
    FetchHook.status
      (fetchHook
         (run id docData_pairs getPageWordsBySearch
            (mount id documentName isDocumentFetched st) events)) in
  status = "pending" ∨ status = "success" ∨ status = "error".
Proof.
  cbn zeta.
  set (known := λ s : string, s = "pending" ∨ s = "success" ∨ s = "error").
  assert (Hinv : ∀ events w,
    (∃ s, known s ∧ FetchHook.updates (fetchHook w) ≠ []
          ∧ List.last (FetchHook.updates (fetchHook w)) "" = s) →
    known (FetchHook.status
             (fetchHook (run id docData_pairs getPageWordsBySearch w events)))).
  { clear events. intros events.
    induction events as [|e events IH]; intros w (s & Hs & Hne & Hlast).
    - unfold FetchHook.status. cbn. by rewrite Hlast.
    - rewrite run_cons. apply IH.
      assert (Hset : ∀ s', known s' →
        ∃ s0, known s0
          ∧ FetchHook.updates
              (FetchHook.setStatus_when_mounted s' (fetchHook w)) ≠ []
          ∧ List.last
              (FetchHook.updates
                 (FetchHook.setStatus_when_mounted s' (fetchHook w))) ""
            = s0).
      { intros s' Hs'. unfold FetchHook.setStatus_when_mounted.
        destruct (FetchHook.isMounted (fetchHook w)); cbn.
        - exists s'. split; [done|]. split; [by destruct (FetchHook.updates _)|].
          apply List.last_last.
        - by exists s. }
      destruct e; cbn; try by exists s.
      + unfold FetchHook.effect.
        destruct isDocumentFetched0; cbn; apply Hset; unfold known; tauto.
      + apply Hset. unfold known; tauto.
      + apply Hset. unfold known; tauto. }
  apply Hinv. unfold mount, FetchHook.effect, known.
  destruct isDocumentFetched; cbn; eexists; (split; [|split; [|reflexivity]]);
    [tauto|done|tauto|done].
Qed.

(** X12: every command that names a document, over any sequence of events,
    names the document of the view: the view fetches, redacts and clears no
    other document. The store after the events is the store after these
    commands. *)
Theorem view_commands_name_own_document
    (id : string) (docData_pairs : list KeyValuePair.t)
    (getPageWordsBySearch : Z → string → list BoundingBox)
    (events : list event) (w : view) :
  store (run id docData_pairs getPageWordsBySearch w events)
  = Store.dispatch (trace id docData_pairs getPageWordsBySearch w events)
      (store w)
  ∧ ∀ a id', In a (trace id docData_pairs getPageWordsBySearch w events) →
             target a = Some id' → id' = id.
Proof.
  revert w. induction events as [|e events IH]; intros w; [done|].
  rewrite run_cons. destruct (IH (step id docData_pairs getPageWordsBySearch w e))
    as [Hstore Htarget].
  split.
  - rewrite Hstore, step_commands. cbn [trace]. unfold Store.dispatch.
    by rewrite fold_left_app.
  - intros a id'. cbn [trace]. rewrite in_app_iff. intros [Hin|Hin].
    + by apply (commands_target id docData_pairs getPageWordsBySearch w e).
    + by apply Htarget.
Qed.

(** ** Pairs, marks and lines, further *)

Lemma pageData_pairs_as_filter (docData_pairs : list KeyValuePair.t) (p : Z) :
  pageData_pairs docData_pairs p
  = filter (λ d, KeyValuePair.pageNumber d = p) docData_pairs.
Proof.
  unfold pageData_pairs.
  induction docData_pairs as [|d l IH]; [done|]. cbn [List.filter].
  rewrite filter_cons, IH.
  destruct (Z.eqb_spec (KeyValuePair.pageNumber d) p); case_decide; done.
Qed.

Lemma pagePairsAsMarks_flat_map (pairs : list KeyValuePair.t) :
  pagePairsAsMarks pairs
  = List.flat_map (λ p, [keyMark p; valueMark p]) pairs.
Proof. unfold pagePairsAsMarks. by rewrite pagePairsAsMarks_from. Qed.

(** X13: the marks of the key-value tab come from the pairs of the current
    page and from no other: a mark is shown if and only if it is the key
    mark or the value mark of a pair of the document whose page number is the
    current one. *)
Theorem marks_of_current_page_only
    (docData_pairs : list KeyValuePair.t) (currentPageNumber : Z)
    (mark : Mark.t) :
  In mark (pagePairsAsMarks (pageData_pairs docData_pairs currentPageNumber))
  ↔ ∃ pair, In pair docData_pairs
            ∧ KeyValuePair.pageNumber pair = currentPageNumber
            ∧ (mark = keyMark pair ∨ mark = valueMark pair).
Proof.
  rewrite pagePairsAsMarks_flat_map, in_flat_map. unfold pageData_pairs.
  split.
  - intros (pair & [Hin Hpage%Z.eqb_eq]%filter_In & Hmark).
    exists pair. do 2 (split; [done|]). cbn in Hmark. intuition.
  - intros (pair & Hin & Hpage & Hmark). exists pair. split.
    + apply filter_In. split; [done|]. by apply Z.eqb_eq.
    + cbn. intuition.
Qed.

(** X14: 'redact all values' redacts exactly the boxes of the value marks
    that the key-value tab shows, in their order. *)
Theorem redactAllValues_redacts_value_marks
    (id : string) (currentPageNumber : Z) (pairs : list KeyValuePair.t) :
  redactAllValues id currentPageNumber pairs
  = [Store.addRedactions id currentPageNumber
       (List.map Mark.box
          (List.filter (λ mark, String.eqb (Mark.type mark) "value")
             (pagePairsAsMarks pairs)))].
Proof.
  unfold redactAllValues. do 2 f_equal.
  induction pairs as [|p pairs IH]; [done|].
  rewrite pagePairsAsMarks_cons. cbn. by rewrite IH.
Qed.

(** X15: the page lists share out the pairs of the document: over pages
    without repetition that include the page number of every pair, the
    page-level lists together hold each pair of the document once. *)
Theorem pairs_shared_out_over_pages
    (pages : list Z) (docData_pairs : list KeyValuePair.t) :
  NoDup pages →
  (∀ d, In d docData_pairs → In (KeyValuePair.pageNumber d) pages) →
  concat (List.map (pageData_pairs docData_pairs) pages) ≡ₚ docData_pairs.
Proof.
  revert docData_pairs.
  induction pages as [|p pages IH]; intros l Hnodup Hpages.
  - destruct l as [|d l]; [done|]. destruct (Hpages d). by left.
  - apply NoDup_cons in Hnodup as [Hp Hnodup]. cbn [List.map concat].
    set (l' := filter (λ d, KeyValuePair.pageNumber d ≠ p) l).
    assert (Hmap : List.map (pageData_pairs l) pages
                   = List.map (pageData_pairs l') pages).
    { apply map_ext_in. intros p' Hp'. rewrite !pageData_pairs_as_filter.
      subst l'. rewrite list_filter_filter. apply list_filter_iff.
      intros d. split; [|tauto]. intros ->. split; [done|].
      intros ->. apply Hp. by apply list_elem_of_In. }
    rewrite Hmap, IH.
    + rewrite pageData_pairs_as_filter. subst l'. apply filter_app_complement.
    + done.
    + intros d [Hd Hin%list_elem_of_In]%list_elem_of_In%list_elem_of_filter.
      destruct (Hpages d Hin) as [Heq|Hin']; [|exact Hin']. by destruct Hd.
Qed.

Lemma pairs_shared_out_over_pages_witness :
  concat (List.map (pageData_pairs example_pairs) [1%Z; 2%Z]) ≡ₚ example_pairs.
Proof.
  apply (pairs_shared_out_over_pages [1%Z; 2%Z] example_pairs).
  - apply NoDup_cons. split; [|apply NoDup_singleton].
    intros Hin%list_elem_of_In. cbn in Hin. intuition discriminate.
  - intros d. cbn. intros [<-|[<-|[<-|[]]]]; cbn; tauto.
Defined.

(** X16: the mark of a line carries every property of the bounding box of
    the line; its [id] is that of the line unless the box has an [id] of its
    own, which then replaces it (the box is spread after the [id]); a line
    without a box gives a mark with the [id] alone. *)
Theorem line_mark_spreads_box_over_id (pageData_lines : list Line.t) (i : nat) :
  pageLinesAsMarks pageData_lines !! i = lineMark <$> pageData_lines !! i
  ∧ ∀ line, pageData_lines !! i = Some line →
      let box := default ∅ (Line.boundingBox line) in
      (∀ k, k ≠ "id" → lineMark line !! k = box !! k)
      ∧ lineMark line !! "id"
        = Some (default (Str (Line.id line)) (box !! "id"))
      ∧ (Line.boundingBox line = None
         → lineMark line = {["id" := Str (Line.id line)]}).
Proof.
  split; [apply list_lookup_fmap|].
  intros line _ box. unfold lineMark. fold box. repeat split.
  - intros k Hk. rewrite lookup_union_l; [done|]. by apply lookup_singleton_ne.
  - rewrite lookup_union. rewrite lookup_singleton_eq.
    by destruct (box !! "id").
  - subst box. intros ->. cbn. by rewrite (left_id ∅ (∪)).
Qed.

(** ** The download of the key-value pairs *)

Lemma append_cancel_r (s s' suffix : string) :
  s +:+ suffix = s' +:+ suffix → s = s'.
Proof.
  revert s'. induction s as [|c s IH]; intros [|c' s'] Heq.
  - done.
  - apply (f_equal String.length) in Heq.
    rewrite append_empty, append_String in Heq. cbn in Heq.
    rewrite length_append in Heq. lia.
  - apply (f_equal String.length) in Heq.
    rewrite append_empty, append_String in Heq. cbn in Heq.
    rewrite length_append in Heq. lia.
  - rewrite !append_String in Heq. injection Heq as -> Heq.
    by rewrite (IH s' Heq).
Qed.

(** X17: the storage key that [downloadKV] requests tells the pages apart.
    For page numbers that are safe integers the key is the result
    directory, printed as 'undefined' where the document has none, then
    'page-', the page number in decimal digits and '-forms.csv'; the URL
    expires after 300 seconds; and for one result directory two such page
    numbers give the same key only when they are the same page. *)
Theorem downloadKV_key_per_page (resultDirectory : option string)
    (currentPageNumber currentPageNumber' : Z) :
  safe_integer currentPageNumber →
  safe_integer currentPageNumber' →
  ∃ get get',
    downloadKV resultDirectory currentPageNumber = Some get
    ∧ downloadKV resultDirectory currentPageNumber' = Some get'
    ∧ storage_key get
      = default "undefined" resultDirectory +:+ "page-"
        +:+ pretty currentPageNumber +:+ "-forms.csv"
    ∧ storage_expires get = 300%N
    ∧ (storage_key get = storage_key get'
       ↔ currentPageNumber = currentPageNumber').
Proof.
  unfold safe_integer, downloadKV, template_number. intros Hp Hp'.
  assert (Hpow : (2 ^ 53 < 10 ^ 21)%Z) by reflexivity.
  rewrite (proj2 (Z.ltb_lt (Z.abs currentPageNumber) (10 ^ 21))) by lia.
  rewrite (proj2 (Z.ltb_lt (Z.abs currentPageNumber') (10 ^ 21))) by lia.
  eexists _, _. do 2 (split; [reflexivity|]).
  cbn [storage_key storage_expires]. do 2 (split; [reflexivity|]).
  split; [|by intros ->]. intros Hkey.
  apply (inj (String.app _)), (inj (String.app _)) in Hkey.
  apply append_cancel_r in Hkey. by apply (inj pretty).
Qed.

(** X17 at the pages 1 and 2 of a document whose results are under
    'out/doc/'. *)
Lemma downloadKV_key_per_page_witness :
  safe_integer 1 ∧ safe_integer 2
  ∧ ∃ get get',
      downloadKV (Some "out/doc/") 1 = Some get
      ∧ downloadKV (Some "out/doc/") 2 = Some get'
      ∧ storage_key get = "out/doc/page-1-forms.csv"
      ∧ storage_expires get = 300%N
      ∧ (storage_key get = storage_key get' ↔ 1%Z = 2%Z).
Proof.
  split; [reflexivity|]. split; [reflexivity|].
  apply (downloadKV_key_per_page (Some "out/doc/") 1 2); reflexivity.
Defined.

(** ** The highlighted pair *)

Section HighlightFacts.

Context {K : Type}.
Variable same : K → K → bool.
Variable truthy : K → bool.

Lemma setHighlightedKv_timed (v : option K) (h : highlight K) :
  timed truthy h → timed truthy (setHighlightedKv same truthy v h).
Proof.
  unfold timed, setHighlightedKv, highlight_effect. intros Hh.
  destruct (same_state same (highlightedKv h) v); [done|].
  destruct v as [kv|]; cbn; [|done].
  destruct (truthy kv) eqn:Hkv; cbn; [lia|].
  intros kv' [= <-]. congruence.
Qed.

Lemma timer_fires_clears (h : highlight K) :
  0 < timers h →
  highlightedKv (timer_fires same truthy h) = None
  ∧ timers (timer_fires same truthy h) = pred (timers h).
Proof.
  unfold timer_fires, setHighlightedKv, highlight_effect.
  destruct (timers h) as [|n]; [lia|]. intros _.
  by destruct (highlightedKv h).
Qed.

Lemma timer_fires_timed (h : highlight K) :
  timed truthy h → timed truthy (timer_fires same truthy h).
Proof.
  intros Hh. destruct (timers h) as [|n] eqn:Hn.
  - unfold timer_fires. by rewrite Hn.
  - destruct (timer_fires_clears h) as [Hnone _]; [lia|].
    unfold timed. by rewrite Hnone.
Qed.

Lemma highlight_run_timed (events : list (highlight_event (K := K)))
    (h : highlight K) :
  timed truthy h → timed truthy (highlight_run same truthy h events).
Proof.
  revert h. induction events as [|e events IH]; intros h Hh; [done|].
  cbn. apply IH. destruct e; [by apply setHighlightedKv_timed|].
  by apply timer_fires_timed.
Qed.

Lemma timers_drain (n : nat) (h : highlight K) (kv : K) :
  timed truthy h → timers h = n →
  highlightedKv (highlight_run same truthy h (replicate n TimerFires)) = Some kv →
  truthy kv = false.
Proof.
  revert h. induction n as [|n IH]; intros h Hh Hn.
  - cbn. intros Hkv. apply not_true_is_false. intros Htruthy.
    specialize (Hh kv Hkv Htruthy). lia.
  - cbn. destruct (timer_fires_clears h) as [Hnone Htimers]; [lia|].
    apply IH; [by apply timer_fires_timed|]. by rewrite Htimers, Hn.
Qed.

End HighlightFacts.

(** X18: a highlight never sticks. [same] is [Object.is] and [truthy] the
    truthiness that the effect tests. Whatever values are highlighted and
    whenever the timers fire, a truthy highlighted value has a timer that
    is still to fire; any timer that fires resets the highlight to [null],
    also that of a later value; and once the timers that are set have
    fired, nothing truthy is highlighted. A value that is not truthy, such
    as [''], is kept without a timer. *)
Theorem highlight_never_sticks {K : Type} (same : K → K → bool)
    (truthy : K → bool) (events : list (highlight_event (K := K))) :
  let h := highlight_run same truthy initial_highlight events in
  (∀ kv, highlightedKv h = Some kv → truthy kv = true → 0 < timers h)
  ∧ (0 < timers h → highlightedKv (timer_fires same truthy h) = None)
  ∧ (∀ kv,
       highlightedKv
         (highlight_run same truthy h (replicate (timers h) TimerFires))
       = Some kv →
       truthy kv = false)
  ∧ (∀ kv, truthy kv = false →
       setHighlightedKv same truthy (Some kv) initial_highlight
       = {| highlightedKv := Some kv; timers := 0 |}).
Proof.
  intros h.
  assert (Hh : timed truthy h).
  { subst h. apply highlight_run_timed. by intros kv. }
  split; [exact Hh|]. split; [|split].
  - intros Htimers. by apply timer_fires_clears.
  - intros kv. by apply timers_drain.
  - intros kv Hkv. unfold setHighlightedKv, highlight_effect. cbn.
    by rewrite Hkv.
Qed.

(** X18 on strings: after 'a', 'b' and one timer the highlight is reset
    with one timer left; the empty string is kept without a timer. *)
Lemma highlight_never_sticks_witness :
  let h := highlight_run String.eqb truthy_string initial_highlight
             [Highlights (Some "a"); Highlights (Some "b"); TimerFires] in
  let h' := highlight_run String.eqb truthy_string h
              [TimerFires; Highlights (Some "")] in
  timers h = 1 ∧ highlightedKv h = None
  ∧ timers h' = 0 ∧ highlightedKv h' = Some ""
  ∧ ∀ kv,
      highlightedKv
        (highlight_run String.eqb truthy_string h
           (replicate (timers h) TimerFires)) = Some kv →
      truthy_string kv = false.
Proof.
  intros h h'. do 4 (split; [reflexivity|]).
  exact (proj1 (proj2 (proj2 (highlight_never_sticks String.eqb truthy_string
                         [Highlights (Some "a"); Highlights (Some "b");
                          TimerFires])))).
Defined.

(** ** Memoised values, further *)

(** X19: the page-level pairs that [useMemo] keeps are never stale: after
    any renders, the value kept is the filter of the pairs and the page
    number of the latest render. *)
Theorem pageData_pairs_memo_never_stale
    (same : list KeyValuePair.t * Z → list KeyValuePair.t * Z → bool)
    (renders : list (list KeyValuePair.t * Z))
    (docData_pairs : list KeyValuePair.t) (currentPageNumber : Z) :
  (∀ d d', same d d' = true → d = d') →
  ∃ m,
    rerender same (λ deps, pageData_pairs deps.1 deps.2) None
      (renders ++ [(docData_pairs, currentPageNumber)]) = Some m
    ∧ memo_value m = pageData_pairs docData_pairs currentPageNumber.
Proof.
  intros Hsame. unfold rerender at 1. rewrite fold_left_app. cbn.
  eexists. split; [reflexivity|].
  fold (rerender same (λ deps, pageData_pairs deps.1 deps.2) None renders).
  apply (useMemo_value same (λ deps, pageData_pairs deps.1 deps.2)); [done|].
  intros m Hm.
  by destruct (rerender_value same (λ deps, pageData_pairs deps.1 deps.2)
                 renders None Hsame ltac:(done) m Hm).
Qed.

Lemma pageData_pairs_memo_never_stale_witness :
  ∃ m,
    rerender (λ d d', bool_decide (d = d'))
      (λ deps, pageData_pairs deps.1 deps.2) None
      ([(example_pairs, 1%Z); (example_pairs, 1%Z)] ++ [(example_pairs, 2%Z)])
    = Some m
    ∧ memo_value m = pageData_pairs example_pairs 2.
Proof.
  apply (pageData_pairs_memo_never_stale (λ d d', bool_decide (d = d'))
           [(example_pairs, 1%Z); (example_pairs, 1%Z)] example_pairs 2%Z).
  intros d d' Hsame. exact (bool_decide_eq_true_1 _ Hsame).
Defined.

